(** * mypy/literals.py: literal classification and literal hashes

    A shallow embedding of [literal], [literal_hash], the [_Hasher] visitor
    and [extract_var_from_literal_hash], and the properties of the
    written specification checked against them. *)

From Stdlib Require Import ZArith List String Bool Lia.
From Stdlib Require Import Floats.SpecFloat.
Import ListNotations.
Open Scope string_scope.
Open Scope Z_scope.

Set Implicit Arguments.
#[local] Set Warnings "-register-all".

(** ** Exceptions

    The only exception the module can raise by itself is the [ValueError]
    of the builtin [min] on an empty sequence. *)

Inductive exn : Type := ValueError.

Inductive result (A : Type) : Type :=
| Ok (a : A)
| Raise (x : exn).

Arguments Ok {A} a.
Arguments Raise {A} x.

Definition bind {A B : Type} (m : result A) (k : A -> result B) : result B :=
  match m with
  | Ok a => k a
  | Raise x => Raise x
  end.

Notation "x <- m ;; k" := (bind m (fun x => k))
  (at level 61, m at next level, right associativity).

(** [tuple(f(x) for x in l)]: every element is evaluated, in order. *)
Definition mapM {A B : Type} (f : A -> result B) : list A -> result (list B) :=
  fix go (l : list A) : result (list B) :=
    match l with
    | [] => Ok []
    | x :: xs => y <- f x ;; ys <- go xs ;; Ok (y :: ys)
    end.

(** [all(p(x) for x in l)]: stops at the first element that fails [p]. *)
Definition allM {A : Type} (p : A -> result bool) : list A -> result bool :=
  fix go (l : list A) : result bool :=
    match l with
    | [] => Ok true
    | x :: xs => b <- p x ;; if b then go xs else Ok false
    end.

(** The builtin [min] over a sequence of integers. *)
Definition py_min (cs : list Z) : result Z :=
  match cs with
  | [] => Raise ValueError
  | c :: cs' => Ok (fold_left Z.min cs' c)
  end.

(** ** Values of constants *)

(** Modelled from the spec: the declarations of mypy.nodes are not part of
    the sources; a scalar constant is an integer, a float, a complex
    number, a string or a byte string. *)
Inductive value : Type :=
| VInt (z : Z)
| VFloat (f : spec_float)
| VComplex (re im : spec_float)
| VStr (s : string)
| VBytes (b : list Byte.byte).

(** ** Symbol nodes *)

Record Var : Type := mkVar {
  var_id : positive;              (* the identity of the object *)
  is_final : bool;
  final_value : option value
}.

Inductive SymbolNode : Type :=
| VarNode (v : Var)
| OtherNode (id : positive).      (* FuncDef, TypeInfo, MypyFile, ... *)

(** ** Expressions *)

(** The expression classes for which every [_Hasher] method returns
    [None]; none of their fields is read by this module. *)
Inductive unhashed : Type :=
| CallExpr | SliceExpr | CastExpr | AssertTypeExpr | ConditionalExpr
| EllipsisExpr | YieldFromExpr | YieldExpr | RevealExpr | SuperExpr
| TypeApplication | LambdaExpr | ListComprehension | SetComprehension
| DictionaryComprehension | GeneratorExpr | TypeVarExpr | ParamSpecExpr
| TypeVarTupleExpr | TypeAliasExpr | NamedTupleExpr | EnumCallExpr
| TypedDictExpr | NewTypeExpr | PromoteExpr | AwaitExpr | TempNode.

(** The fields are those this module reads.  The declaration of
    [BytesExpr] is not among the sources: its [value] is kept as mypy.nodes
    records it, of whatever kind that is. *)
Inductive Expression : Type :=
| IntExpr (value : Z)
| StrExpr (value : string)
| BytesExpr (value : value)
| FloatExpr (value : spec_float)
| ComplexExpr (re im : spec_float)
| StarExpr (expr : Expression)
| NameExpr (name : string) (node : option SymbolNode)
| MemberExpr (expr : Expression) (name : string)
| OpExpr (op : string) (left right : Expression)
| ComparisonExpr (operators : list string) (operands : list Expression)
| UnaryExpr (op : string) (expr : Expression)
| ListExpr (items : list Expression)
| DictExpr (items : list (option Expression * Expression))
| TupleExpr (items : list Expression)
| SetExpr (items : list Expression)
| IndexExpr (base index : Expression)
| AssignmentExpr (target value : Expression)
| Unhashed (cls : unhashed).

(** ** Keys *)

(** One element of a Key: a string or number, a symbol node, [None], or a
    nested tuple. *)
Inductive item : Type :=
| KVal (v : value)
| KNode (n : SymbolNode)
| KNone
| KTuple (elts : list item).

Definition Key : Type := list item.

Definition tag (s : string) : item := KVal (VStr s).

(** A value of type [Key | None] placed inside a tuple. *)
Definition opt_item (h : option Key) : item :=
  match h with
  | Some k => KTuple k
  | None => KNone
  end.

(** [e.node] placed inside a tuple. *)
Definition node_item (n : option SymbolNode) : item :=
  match n with
  | Some s => KNode s
  | None => KNone
  end.

(** Truth value of a [Key | None]: [None] and the empty tuple are false. *)
Definition truthy (h : option Key) : bool :=
  match h with
  | None => false
  | Some [] => false
  | Some (_ :: _) => true
  end.

(** ** Classification constants *)

(** Modelled from the spec: the constants of mypy.nodes, ordered
    No < Unknown-but-stable < Yes. *)
Definition LITERAL_NO : Z := 0.
Definition LITERAL_TYPE : Z := 1.
Definition LITERAL_YES : Z := 2.

(** [isinstance(node, Var) and node.is_final and node.final_value is not None] *)
Definition final_constant (node : option SymbolNode) : option value :=
  match node with
  | Some (VarNode v) => if is_final v then final_value v else None
  | _ => None
  end.

(** ** The visitor [_Hasher]

    The methods are written over the two functions they call back,
    [literal] and [literal_hash]; the knot is tied below. *)

Section Hasher.

Variable literal : Expression -> result Z.
Variable literal_hash : Expression -> result (option Key).

Definition visit_int_expr (v : Z) : result (option Key) :=
  Ok (Some [tag "Literal"; KVal (VInt v)]).

Definition visit_str_expr (v : string) : result (option Key) :=
  Ok (Some [tag "Literal"; KVal (VStr v)]).

Definition visit_bytes_expr (v : value) : result (option Key) :=
  Ok (Some [tag "Literal"; KVal v]).

Definition visit_float_expr (v : spec_float) : result (option Key) :=
  Ok (Some [tag "Literal"; KVal (VFloat v)]).

Definition visit_complex_expr (re im : spec_float) : result (option Key) :=
  Ok (Some [tag "Literal"; KVal (VComplex re im)]).

Definition visit_star_expr (expr : Expression) : result (option Key) :=
  h <- literal_hash expr ;;
  Ok (Some [tag "Star"; opt_item h]).

Definition visit_name_expr (node : option SymbolNode) : result (option Key) :=
  match final_constant node with
  | Some v => Ok (Some [tag "Literal"; KVal v])
  | None => Ok (Some [tag "Var"; node_item node])
  end.

Definition visit_member_expr (expr : Expression) (name : string)
  : result (option Key) :=
  h <- literal_hash expr ;;
  Ok (Some [tag "Member"; opt_item h; KVal (VStr name)]).

Definition visit_op_expr (op : string) (left right : Expression)
  : result (option Key) :=
  hl <- literal_hash left ;;
  hr <- literal_hash right ;;
  Ok (Some [tag "Binary"; KVal (VStr op); opt_item hl; opt_item hr]).

Definition visit_comparison_expr (operators : list string)
    (operands : list Expression) : result (option Key) :=
  hs <- mapM literal_hash operands ;;
  Ok (Some (tag "Comparison" :: map tag operators ++ map opt_item hs)).

Definition visit_unary_expr (op : string) (expr : Expression)
  : result (option Key) :=
  h <- literal_hash expr ;;
  Ok (Some [tag "Unary"; KVal (VStr op); opt_item h]).

Definition seq_expr (items : list Expression) (name : string)
  : result (option Key) :=
  b <- allM (fun x => c <- literal x ;; Ok (c =? LITERAL_YES)) items ;;
  if b then
    rest <- mapM literal_hash items ;;
    Ok (Some (tag name :: map opt_item rest))
  else Ok None.

Definition visit_list_expr (items : list Expression) := seq_expr items "List".

Definition visit_dict_expr (items : list (option Expression * Expression))
  : result (option Key) :=
  b <- allM (fun ab =>
               match fst ab with
               | None => Ok false
               | Some a =>
                   ca <- literal a ;;
                   cb <- literal (snd ab) ;;
                   Ok ((ca =? cb) && (cb =? LITERAL_YES))%bool
               end) items ;;
  if b then
    rest <- mapM (fun ab =>
                    ha <- match fst ab with
                          | Some a => literal_hash a
                          | None => Ok None
                          end ;;
                    hb <- literal_hash (snd ab) ;;
                    Ok (KTuple [opt_item ha; opt_item hb])) items ;;
    Ok (Some (tag "Dict" :: rest))
  else Ok None.

Definition visit_tuple_expr (items : list Expression) := seq_expr items "Tuple".

Definition visit_set_expr (items : list Expression) := seq_expr items "Set".

Definition visit_index_expr (base index : Expression) : result (option Key) :=
  c <- literal index ;;
  if c =? LITERAL_YES then
    hb <- literal_hash base ;;
    hi <- literal_hash index ;;
    Ok (Some [tag "Index"; opt_item hb; opt_item hi])
  else Ok None.

Definition visit_assignment_expr (target : Expression) : result (option Key) :=
  literal_hash target.

(** [visit_call_expr] ... [visit_temp_node]: one method per class, each
    returning [None]. *)
Definition visit_unhashed (cls : unhashed) : result (option Key) :=
  match cls with
  | CallExpr => Ok None
  | SliceExpr => Ok None
  | CastExpr => Ok None
  | AssertTypeExpr => Ok None
  | ConditionalExpr => Ok None
  | EllipsisExpr => Ok None
  | YieldFromExpr => Ok None
  | YieldExpr => Ok None
  | RevealExpr => Ok None
  | SuperExpr => Ok None
  | TypeApplication => Ok None
  | LambdaExpr => Ok None
  | ListComprehension => Ok None
  | SetComprehension => Ok None
  | DictionaryComprehension => Ok None
  | GeneratorExpr => Ok None
  | TypeVarExpr => Ok None
  | ParamSpecExpr => Ok None
  | TypeVarTupleExpr => Ok None
  | TypeAliasExpr => Ok None
  | NamedTupleExpr => Ok None
  | EnumCallExpr => Ok None
  | TypedDictExpr => Ok None
  | NewTypeExpr => Ok None
  | PromoteExpr => Ok None
  | AwaitExpr => Ok None
  | TempNode => Ok None
  end.

(** [e.accept(_hasher)]: dispatch on the class of [e]. *)
Definition accept (e : Expression) : result (option Key) :=
  match e with
  | IntExpr v => visit_int_expr v
  | StrExpr v => visit_str_expr v
  | BytesExpr v => visit_bytes_expr v
  | FloatExpr v => visit_float_expr v
  | ComplexExpr re im => visit_complex_expr re im
  | StarExpr x => visit_star_expr x
  | NameExpr _ node => visit_name_expr node
  | MemberExpr x name => visit_member_expr x name
  | OpExpr op l r => visit_op_expr op l r
  | ComparisonExpr ops operands => visit_comparison_expr ops operands
  | UnaryExpr op x => visit_unary_expr op x
  | ListExpr items => visit_list_expr items
  | DictExpr items => visit_dict_expr items
  | TupleExpr items => visit_tuple_expr items
  | SetExpr items => visit_set_expr items
  | IndexExpr base index => visit_index_expr base index
  | AssignmentExpr target _ => visit_assignment_expr target
  | Unhashed cls => visit_unhashed cls
  end.

End Hasher.

(** ** [literal] and [literal_hash] *)

Fixpoint literal (e : Expression) : result Z :=
  match e with
  | ComparisonExpr _ operands =>
      cs <- mapM literal operands ;; py_min cs
  | OpExpr _ l r =>
      cl <- literal l ;; cr <- literal r ;; Ok (Z.min cl cr)
  | MemberExpr expr _ | UnaryExpr _ expr | StarExpr expr =>
      literal expr
  | AssignmentExpr target _ =>
      literal target
  | IndexExpr base index =>
      c <- literal index ;;
      if c =? LITERAL_YES then literal base else Ok LITERAL_NO
  | NameExpr _ node =>
      match final_constant node with
      | Some _ => Ok LITERAL_YES
      | None => Ok LITERAL_TYPE
      end
  | IntExpr _ | FloatExpr _ | ComplexExpr _ _ | StrExpr _ | BytesExpr _ =>
      Ok LITERAL_YES
  | ListExpr _ | DictExpr _ | TupleExpr _ | SetExpr _ | Unhashed _ =>
      (* [if literal_hash(e)]: the call is written as the dispatch it
         performs, which recurses on sub-expressions only *)
      h <- accept literal literal_hash e ;;
      if truthy h then Ok LITERAL_YES else Ok LITERAL_NO
  end

with literal_hash (e : Expression) : result (option Key) :=
  accept literal literal_hash e.

(** ** Equality of Keys

    Keys are compared with [==].  Two tuples are equal when they have the
    same length and their elements are pairwise equal, and the comparison
    of two elements is [x is y or x == y]: one and the same object is
    equal to itself whatever its own [==] answers.  Strings and byte
    strings are compared by content, numbers by numeric value across
    [int], [float] and [complex] following IEEE 754 (a NaN is not [==] to
    anything), nodes by identity.

    An object of the model is its value: [x is y] holds of two
    occurrences of the same representation.  So a Key that holds a NaN is
    equal to itself, as in Python; two NaN objects of distinct identity,
    which Python tells apart, are not distinguished by the model. *)

Definition forall2b {A B : Type} (f : A -> B -> bool)
  : list A -> list B -> bool :=
  fix go (l : list A) (r : list B) : bool :=
    match l, r with
    | [], [] => true
    | x :: l', y :: r' => f x y && go l' r'
    | _, _ => false
    end.

(** The integer a float is equal to, if there is one. *)
Definition float_to_Z (f : spec_float) : option Z :=
  match f with
  | S754_zero _ => Some 0
  | S754_finite s m e =>
      let z := if s then Z.neg m else Z.pos m in
      if 0 <=? e then Some (z * 2 ^ e)
      else if Z.pos m mod 2 ^ (- e) =? 0 then Some (z / 2 ^ (- e))
      else None
  | _ => None
  end.

Inductive num : Type :=
| NInt (z : Z)
| NFloat (f : spec_float).

Definition num_eqb (a b : num) : bool :=
  match a, b with
  | NInt x, NInt y => x =? y
  | NInt x, NFloat f | NFloat f, NInt x =>
      match float_to_Z f with
      | Some y => x =? y
      | None => false
      end
  | NFloat f, NFloat g => SFeqb f g
  end.

(** Real and imaginary part of a number. *)
Definition numeric (v : value) : option (num * num) :=
  match v with
  | VInt z => Some (NInt z, NInt 0)
  | VFloat f => Some (NFloat f, NInt 0)
  | VComplex re im => Some (NFloat re, NFloat im)
  | VStr _ | VBytes _ => None
  end.

(** [a is b] on floats and on values. *)
Definition float_same (f g : spec_float) : bool :=
  match f, g with
  | S754_zero s, S754_zero t => Bool.eqb s t
  | S754_infinity s, S754_infinity t => Bool.eqb s t
  | S754_nan, S754_nan => true
  | S754_finite s m e, S754_finite t n k =>
      Bool.eqb s t && Pos.eqb m n && (e =? k)
  | _, _ => false
  end.

Definition value_same (a b : value) : bool :=
  match a, b with
  | VInt x, VInt y => x =? y
  | VFloat f, VFloat g => float_same f g
  | VComplex r1 i1, VComplex r2 i2 => float_same r1 r2 && float_same i1 i2
  | VStr s, VStr t => String.eqb s t
  | VBytes s, VBytes t => forall2b Byte.eqb s t
  | _, _ => false
  end.

(** [a == b] on values. *)
Definition value_equal (a b : value) : bool :=
  match a, b with
  | VStr s, VStr t => String.eqb s t
  | VBytes s, VBytes t => forall2b Byte.eqb s t
  | _, _ =>
      match numeric a, numeric b with
      | Some (r1, i1), Some (r2, i2) => num_eqb r1 r2 && num_eqb i1 i2
      | _, _ => false
      end
  end.

(** [a is b or a == b]: the comparison of two elements of a tuple. *)
Definition value_eqb (a b : value) : bool :=
  value_same a b || value_equal a b.

Definition node_id (n : SymbolNode) : positive :=
  match n with
  | VarNode v => var_id v
  | OtherNode id => id
  end.

(** [a is b] on symbol nodes. *)
Definition node_is (a b : SymbolNode) : bool := Pos.eqb (node_id a) (node_id b).

Fixpoint item_eqb (a b : item) : bool :=
  match a, b with
  | KVal v, KVal w => value_eqb v w
  | KNode n, KNode m => node_is n m
  | KNone, KNone => true
  | KTuple l, KTuple r => forall2b item_eqb l r
  | _, _ => false
  end.

Definition key_eqb (k1 k2 : Key) : bool := forall2b item_eqb k1 k2.

(** ** [subkeys] and [extract_var_from_literal_hash] *)

Definition subkeys (key : Key) : list Key :=
  flat_map (fun elt => match elt with KTuple k => [k] | _ => [] end) key.

Definition extract_var_from_literal_hash (key : Key) : option Var :=
  match key with
  | [k0; k1] =>
      if item_eqb k0 (tag "Var") then
        match k1 with
        | KNode (VarNode v) => Some v
        | _ => None
        end
      else None
  | _ => None
  end.

(** ** Notions used by the properties *)

(** The trees of the expression grammar, as far as this module reads
    them: every comparison chain has at least one operand.  The parser
    builds a chain with one operand more than it has operators; the other
    classes put no constraint on the fields read here. *)
Fixpoint well_formed (e : Expression) : bool :=
  match e with
  | IntExpr _ | StrExpr _ | BytesExpr _ | FloatExpr _ | ComplexExpr _ _
  | NameExpr _ _ | Unhashed _ => true
  | StarExpr x | MemberExpr x _ | UnaryExpr _ x => well_formed x
  | OpExpr _ l r => well_formed l && well_formed r
  | ComparisonExpr _ operands =>
      match operands with [] => false | _ :: _ => forallb well_formed operands end
  | ListExpr items | TupleExpr items | SetExpr items =>
      forallb well_formed items
  | DictExpr items =>
      forallb (fun ab =>
                 match fst ab with
                 | Some a => well_formed a
                 | None => true
                 end && well_formed (snd ab)) items
  | IndexExpr base index => well_formed base && well_formed index
  | AssignmentExpr target value => well_formed target && well_formed value
  end.

(** The sub-expressions whose hashes a star, member, unary, binary or
    comparison expression embeds; [None] for the other classes. *)
Definition embedded (e : Expression) : option (list Expression) :=
  match e with
  | StarExpr x | MemberExpr x _ | UnaryExpr _ x => Some [x]
  | OpExpr _ l r => Some [l; r]
  | ComparisonExpr _ operands => Some operands
  | _ => None
  end.

(** The expression an inline assignment stands for: its target. *)
Fixpoint assigned_target (e : Expression) : Expression :=
  match e with
  | AssignmentExpr target _ => assigned_target target
  | _ => e
  end.

(** The variable a bare name refers to, unless the name is bound to a
    final constant. *)
Definition referenced_var (e : Expression) : option Var :=
  match e with
  | NameExpr _ (Some (VarNode v)) =>
      match final_constant (Some (VarNode v)) with
      | Some _ => None
      | None => Some v
      end
  | _ => None
  end.

(** The scalar literal expression that denotes a value. *)
Definition scalar_expr (v : value) : Expression :=
  match v with
  | VInt z => IntExpr z
  | VFloat f => FloatExpr f
  | VComplex re im => ComplexExpr re im
  | VStr s => StrExpr s
  | VBytes b => BytesExpr (VBytes b)
  end.

(** The minimum of a non-empty list of classifications, with the
    ordering No < Unknown-but-stable < Yes taken from the constants. *)
Definition is_minimum (m : Z) (cs : list Z) : Prop :=
  In m cs /\ Forall (fun c => m <= c) cs.

(** *** Syntactic identity

    [identical] follows the words of the specification: two expressions
    are syntactically identical when they have the same shape (the same
    class at every position), the same operators and member names, the
    same literal values and, at names, the same spelling and the same
    resolved node, with the one identification the specification
    records: numeric constants of different numeric kinds that are
    numerically equal, such as 3 and 3.0. *)

Definition option_same {A : Type} (same : A -> A -> bool)
    (a b : option A) : bool :=
  match a, b with
  | Some x, Some y => same x y
  | None, None => true
  | _, _ => false
  end.

(** One and the same node: the same identity and, as one object has
    them, the same contents. *)
Definition node_same (a b : SymbolNode) : bool :=
  match a, b with
  | VarNode v, VarNode w =>
      Pos.eqb (var_id v) (var_id w)
      && Bool.eqb (is_final v) (is_final w)
      && option_same value_same (final_value v) (final_value w)
  | OtherNode i, OtherNode j => Pos.eqb i j
  | _, _ => false
  end.

Definition unhashed_eqb (a b : unhashed) : bool :=
  match a, b with
  | CallExpr, CallExpr | SliceExpr, SliceExpr | CastExpr, CastExpr
  | AssertTypeExpr, AssertTypeExpr | ConditionalExpr, ConditionalExpr
  | EllipsisExpr, EllipsisExpr | YieldFromExpr, YieldFromExpr
  | YieldExpr, YieldExpr | RevealExpr, RevealExpr | SuperExpr, SuperExpr
  | TypeApplication, TypeApplication | LambdaExpr, LambdaExpr
  | ListComprehension, ListComprehension
  | SetComprehension, SetComprehension
  | DictionaryComprehension, DictionaryComprehension
  | GeneratorExpr, GeneratorExpr | TypeVarExpr, TypeVarExpr
  | ParamSpecExpr, ParamSpecExpr | TypeVarTupleExpr, TypeVarTupleExpr
  | TypeAliasExpr, TypeAliasExpr | NamedTupleExpr, NamedTupleExpr
  | EnumCallExpr, EnumCallExpr | TypedDictExpr, TypedDictExpr
  | NewTypeExpr, NewTypeExpr | PromoteExpr, PromoteExpr
  | AwaitExpr, AwaitExpr | TempNode, TempNode => true
  | _, _ => false
  end.

(** The value of an integer, float or complex literal. *)
Definition numeric_constant (e : Expression) : option value :=
  match e with
  | IntExpr z => Some (VInt z)
  | FloatExpr f => Some (VFloat f)
  | ComplexExpr re im => Some (VComplex re im)
  | _ => None
  end.

Fixpoint identical (e1 e2 : Expression) {struct e1} : bool :=
  match numeric_constant e1, numeric_constant e2 with
  | Some v1, Some v2 => value_eqb v1 v2
  | None, None =>
      match e1, e2 with
      | StrExpr s1, StrExpr s2 => String.eqb s1 s2
      | BytesExpr v1, BytesExpr v2 => value_eqb v1 v2
      | NameExpr x1 n1, NameExpr x2 n2 =>
          String.eqb x1 x2 && option_same node_same n1 n2
      | StarExpr x1, StarExpr x2 => identical x1 x2
      | MemberExpr x1 m1, MemberExpr x2 m2 =>
          identical x1 x2 && String.eqb m1 m2
      | UnaryExpr o1 x1, UnaryExpr o2 x2 =>
          String.eqb o1 o2 && identical x1 x2
      | OpExpr o1 l1 r1, OpExpr o2 l2 r2 =>
          String.eqb o1 o2 && identical l1 l2 && identical r1 r2
      | ComparisonExpr ops1 os1, ComparisonExpr ops2 os2 =>
          forall2b String.eqb ops1 ops2 && forall2b identical os1 os2
      | ListExpr l1, ListExpr l2 => forall2b identical l1 l2
      | TupleExpr l1, TupleExpr l2 => forall2b identical l1 l2
      | SetExpr l1, SetExpr l2 => forall2b identical l1 l2
      | DictExpr d1, DictExpr d2 =>
          forall2b (fun ab1 ab2 =>
                      option_same identical (fst ab1) (fst ab2)
                      && identical (snd ab1) (snd ab2)) d1 d2
      | IndexExpr b1 i1, IndexExpr b2 i2 =>
          identical b1 b2 && identical i1 i2
      | AssignmentExpr t1 v1, AssignmentExpr t2 v2 =>
          identical t1 t2 && identical v1 v2
      | Unhashed c1, Unhashed c2 => unhashed_eqb c1 c2
      | _, _ => false
      end
  | _, _ => false
  end.

(** *** The expressions the hasher does not tell apart

    [equivalent] is [identical] made coarser by four identifications:
    - an inline assignment counts as its target, whatever is assigned;
    - a name bound to a final constant counts as that constant;
    - two constants are compared by the value they store, with [==],
      whatever the classes of the two expressions: numbers of any kinds,
      and also a string literal and a bytes literal that store the same
      value;
    - two names that are not final constants are compared by the node
      they resolve to and not by their spelling, so that all unresolved
      names are alike. *)

(** The constant an expression stands for. *)
Definition constant_of (e : Expression) : option value :=
  match e with
  | IntExpr z => Some (VInt z)
  | StrExpr s => Some (VStr s)
  | BytesExpr v => Some v
  | FloatExpr f => Some (VFloat f)
  | ComplexExpr re im => Some (VComplex re im)
  | NameExpr _ node => final_constant node
  | _ => None
  end.

(** [e1.node is e2.node]. *)
Definition same_node (a b : option SymbolNode) : bool :=
  option_same node_is a b.

(** Replace every inline assignment by its target. *)
Fixpoint inline_targets (e : Expression) : Expression :=
  match e with
  | AssignmentExpr target _ => inline_targets target
  | StarExpr x => StarExpr (inline_targets x)
  | MemberExpr x name => MemberExpr (inline_targets x) name
  | UnaryExpr op x => UnaryExpr op (inline_targets x)
  | OpExpr op l r => OpExpr op (inline_targets l) (inline_targets r)
  | ComparisonExpr ops operands =>
      ComparisonExpr ops (map inline_targets operands)
  | ListExpr items => ListExpr (map inline_targets items)
  | TupleExpr items => TupleExpr (map inline_targets items)
  | SetExpr items => SetExpr (map inline_targets items)
  | DictExpr items =>
      DictExpr (map (fun ab => (option_map inline_targets (fst ab),
                                inline_targets (snd ab))) items)
  | IndexExpr base index =>
      IndexExpr (inline_targets base) (inline_targets index)
  | IntExpr _ | StrExpr _ | BytesExpr _ | FloatExpr _ | ComplexExpr _ _
  | NameExpr _ _ | Unhashed _ => e
  end.

(** The last three identifications, on expressions of the same shape. *)
Fixpoint alike (e1 e2 : Expression) {struct e1} : bool :=
  match constant_of e1, constant_of e2 with
  | Some v1, Some v2 => value_eqb v1 v2
  | None, None =>
      match e1, e2 with
      | NameExpr _ n1, NameExpr _ n2 => same_node n1 n2
      | StarExpr x1, StarExpr x2 => alike x1 x2
      | MemberExpr x1 m1, MemberExpr x2 m2 =>
          alike x1 x2 && String.eqb m1 m2
      | UnaryExpr o1 x1, UnaryExpr o2 x2 =>
          String.eqb o1 o2 && alike x1 x2
      | OpExpr o1 l1 r1, OpExpr o2 l2 r2 =>
          String.eqb o1 o2 && alike l1 l2 && alike r1 r2
      | ComparisonExpr ops1 os1, ComparisonExpr ops2 os2 =>
          forall2b String.eqb ops1 ops2 && forall2b alike os1 os2
      | ListExpr l1, ListExpr l2 => forall2b alike l1 l2
      | TupleExpr l1, TupleExpr l2 => forall2b alike l1 l2
      | SetExpr l1, SetExpr l2 => forall2b alike l1 l2
      | DictExpr d1, DictExpr d2 =>
          forall2b (fun ab1 ab2 =>
                      option_same alike (fst ab1) (fst ab2)
                      && alike (snd ab1) (snd ab2)) d1 d2
      | IndexExpr b1 i1, IndexExpr b2 i2 =>
          alike b1 b2 && alike i1 i2
      | AssignmentExpr t1 v1, AssignmentExpr t2 v2 =>
          alike t1 t2 && alike v1 v2
      | Unhashed c1, Unhashed c2 => unhashed_eqb c1 c2
      | _, _ => false
      end
  | _, _ => false
  end.

Definition equivalent (e1 e2 : Expression) : bool :=
  alike (inline_targets e1) (inline_targets e2).



(** *** The place of a sub-expression in a Key *)

(** The Key of a star, member, unary, binary or comparison expression,
    given the hashes of its embedded sub-expressions in order. *)
Definition compound_key (e : Expression) (hs : list (option Key)) : Key :=
  match e with
  | StarExpr _ => tag "Star" :: map opt_item hs
  | MemberExpr _ name =>
      tag "Member" :: map opt_item hs ++ [KVal (VStr name)]
  | UnaryExpr op _ => tag "Unary" :: KVal (VStr op) :: map opt_item hs
  | OpExpr op _ _ => tag "Binary" :: KVal (VStr op) :: map opt_item hs
  | ComparisonExpr ops _ => tag "Comparison" :: map tag ops ++ map opt_item hs
  | _ => []
  end.

(** The index, in that Key, of the hash of the [n]-th embedded
    sub-expression: after the tag, and after the operators where there
    are some. *)
Definition embedded_position (e : Expression) (n : nat) : nat :=
  match e with
  | StarExpr _ | MemberExpr _ _ => (1 + n)%nat
  | UnaryExpr _ _ | OpExpr _ _ _ => (2 + n)%nat
  | ComparisonExpr ops _ => (1 + List.length ops + n)%nat
  | _ => n
  end.

(** The three classifications. *)
Definition classification (c : Z) : Prop :=
  c = LITERAL_NO \/ c = LITERAL_TYPE \/ c = LITERAL_YES.

(** A computation returns a value: it raises no exception. *)
Definition returns {A : Type} (m : result A) : Prop := exists a, m = Ok a.

(** The operands whose classifications a comparison chain or a binary
    operator expression combines. *)
Definition operands_of (e : Expression) : option (list Expression) :=
  match e with
  | ComparisonExpr _ operands => Some operands
  | OpExpr _ l r => Some [l; r]
  | _ => None
  end.

(** List, tuple and set displays, and the name [seq_expr] is given. *)
Inductive display : Type := ListDisplay | TupleDisplay | SetDisplay.

Definition display_expr (d : display) (items : list Expression) : Expression :=
  match d with
  | ListDisplay => ListExpr items
  | TupleDisplay => TupleExpr items
  | SetDisplay => SetExpr items
  end.

Definition display_name (d : display) : string :=
  match d with
  | ListDisplay => "List"
  | TupleDisplay => "Tuple"
  | SetDisplay => "Set"
  end.

(** A dict entry with an explicit key whose key and value are both
    classified Yes. *)
Definition entry_yes (ab : option Expression * Expression) : Prop :=
  exists a, fst ab = Some a
            /\ literal a = Ok LITERAL_YES
            /\ literal (snd ab) = Ok LITERAL_YES.

(** The classifications of a dict entry's key, when it has one, and of
    its value both return. *)
Definition entry_classified (ab : option Expression * Expression) : Prop :=
  (forall a, fst ab = Some a -> returns (literal a))
  /\ returns (literal (snd ab)).

(** The pair a dict entry contributes to the Key. *)
Definition entry_pair (ab : option Expression * Expression) (p : item) : Prop :=
  exists a ka kb,
    fst ab = Some a
    /\ literal_hash a = Ok (Some ka)
    /\ literal_hash (snd ab) = Ok (Some kb)
    /\ p = KTuple [KTuple ka; KTuple kb].

(** An expression is a literal when its classification is not No. *)
Definition is_literal (e : Expression) : Prop :=
  exists c, literal e = Ok c /\ c <> LITERAL_NO.

(** The Key of a literal, written without the gates and the exceptions:
    [literal_hash] returns it on every literal. *)
Fixpoint key_of (e : Expression) : Key :=
  match e with
  | IntExpr v => [tag "Literal"; KVal (VInt v)]
  | StrExpr v => [tag "Literal"; KVal (VStr v)]
  | BytesExpr v => [tag "Literal"; KVal v]
  | FloatExpr v => [tag "Literal"; KVal (VFloat v)]
  | ComplexExpr re im => [tag "Literal"; KVal (VComplex re im)]
  | StarExpr x => [tag "Star"; KTuple (key_of x)]
  | NameExpr _ node =>
      match final_constant node with
      | Some v => [tag "Literal"; KVal v]
      | None => [tag "Var"; node_item node]
      end
  | MemberExpr x name => [tag "Member"; KTuple (key_of x); KVal (VStr name)]
  | OpExpr op l r =>
      [tag "Binary"; KVal (VStr op); KTuple (key_of l); KTuple (key_of r)]
  | ComparisonExpr ops operands =>
      tag "Comparison"
      :: map tag ops ++ map (fun o => KTuple (key_of o)) operands
  | UnaryExpr op x => [tag "Unary"; KVal (VStr op); KTuple (key_of x)]
  | ListExpr items => tag "List" :: map (fun x => KTuple (key_of x)) items
  | DictExpr items =>
      tag "Dict"
      :: map (fun ab =>
                KTuple [match fst ab with
                        | Some a => KTuple (key_of a)
                        | None => KNone
                        end;
                        KTuple (key_of (snd ab))]) items
  | TupleExpr items => tag "Tuple" :: map (fun x => KTuple (key_of x)) items
  | SetExpr items => tag "Set" :: map (fun x => KTuple (key_of x)) items
  | IndexExpr base index =>
      [tag "Index"; KTuple (key_of base); KTuple (key_of index)]
  | AssignmentExpr target _ => key_of target
  | Unhashed _ => []
  end.

(** Whether the expression is an inline assignment. *)
Definition is_assignment (e : Expression) : bool :=
  match e with
  | AssignmentExpr _ _ => true
  | _ => false
  end.

(** The tags with which the methods of [_Hasher] start a Key. *)
Definition key_tags : list string :=
  ["Literal"; "Star"; "Var"; "Member"; "Binary"; "Comparison"; "Unary";
   "List"; "Dict"; "Tuple"; "Set"; "Index"].

(** The sub-expressions whose classification and hash enter those of an
    expression: of an inline assignment only the target, never the value. *)
Definition hashed_children (e : Expression) : list Expression :=
  match e with
  | StarExpr x | MemberExpr x _ | UnaryExpr _ x => [x]
  | OpExpr _ l r => [l; r]
  | ComparisonExpr _ operands => operands
  | ListExpr items | TupleExpr items | SetExpr items => items
  | DictExpr items =>
      flat_map (fun ab => match fst ab with
                          | Some a => [a; snd ab]
                          | None => [snd ab]
                          end) items
  | IndexExpr base index => [base; index]
  | AssignmentExpr target _ => [target]
  | IntExpr _ | StrExpr _ | BytesExpr _ | FloatExpr _ | ComplexExpr _ _
  | NameExpr _ _ | Unhashed _ => []
  end.

(** [hashed_within x e]: [x] is [e] or lies below it along
    [hashed_children]. *)
Inductive hashed_within (x : Expression) : Expression -> Prop :=
| hashed_here : hashed_within x x
| hashed_below (y e : Expression) :
    In y (hashed_children e) -> hashed_within x y -> hashed_within x e.

(** A Key element that holds no symbol node and no [None], at any depth. *)
Fixpoint ground_item (i : item) : bool :=
  match i with
  | KVal _ => true
  | KNode _ | KNone => false
  | KTuple elts => forallb ground_item elts
  end.

Definition ground (k : Key) : bool := forallb ground_item k.

(** * Properties *)

(** ** Induction over expressions, through the nested lists *)

Section Expression_induction.

Variable P : Expression -> Prop.

Hypothesis P_int : forall v, P (IntExpr v).
Hypothesis P_str : forall v, P (StrExpr v).
Hypothesis P_bytes : forall v, P (BytesExpr v).
Hypothesis P_float : forall v, P (FloatExpr v).
Hypothesis P_complex : forall re im, P (ComplexExpr re im).
Hypothesis P_star : forall x, P x -> P (StarExpr x).
Hypothesis P_name : forall name node, P (NameExpr name node).
Hypothesis P_member : forall x name, P x -> P (MemberExpr x name).
Hypothesis P_op : forall op l r, P l -> P r -> P (OpExpr op l r).
Hypothesis P_comparison :
  forall ops operands, Forall P operands -> P (ComparisonExpr ops operands).
Hypothesis P_unary : forall op x, P x -> P (UnaryExpr op x).
Hypothesis P_list : forall items, Forall P items -> P (ListExpr items).
Hypothesis P_dict :
  forall items,
    Forall (fun ab => (forall a, fst ab = Some a -> P a) /\ P (snd ab)) items ->
    P (DictExpr items).
Hypothesis P_tuple : forall items, Forall P items -> P (TupleExpr items).
Hypothesis P_set : forall items, Forall P items -> P (SetExpr items).
Hypothesis P_index : forall b i, P b -> P i -> P (IndexExpr b i).
Hypothesis P_assignment :
  forall t v, P t -> P v -> P (AssignmentExpr t v).
Hypothesis P_unhashed : forall cls, P (Unhashed cls).

Fixpoint Expression_nested_ind (e : Expression) : P e :=
  let all :=
    fix all (l : list Expression) : Forall P l :=
      match l with
      | [] => Forall_nil P
      | x :: xs => Forall_cons x (Expression_nested_ind x) (all xs)
      end in
  match e with
  | IntExpr v => P_int v
  | StrExpr v => P_str v
  | BytesExpr v => P_bytes v
  | FloatExpr v => P_float v
  | ComplexExpr re im => P_complex re im
  | StarExpr x => P_star (Expression_nested_ind x)
  | NameExpr name node => P_name name node
  | MemberExpr x name => P_member name (Expression_nested_ind x)
  | OpExpr op l r =>
      P_op op (Expression_nested_ind l) (Expression_nested_ind r)
  | ComparisonExpr ops operands => P_comparison ops (all operands)
  | UnaryExpr op x => P_unary op (Expression_nested_ind x)
  | ListExpr items => P_list (all items)
  | DictExpr items =>
      P_dict
        ((fix entries (l : list (option Expression * Expression))
            : Forall (fun ab => (forall a, fst ab = Some a -> P a)
                                /\ P (snd ab)) l :=
            match l with
            | [] => Forall_nil _
            | (oa, b) :: xs =>
                Forall_cons (oa, b)
                  (conj
                     (match oa as o
                            return forall a, o = Some a -> P a with
                      | Some a' =>
                          fun a (E : Some a' = Some a) =>
                            match E in _ = s
                                  return match s with
                                         | Some a0 => P a0
                                         | None => True
                                         end with
                            | eq_refl => Expression_nested_ind a'
                            end
                      | None =>
                          fun a (E : None = Some a) =>
                            match E in _ = s
                                  return match s with
                                         | Some a0 => P a0
                                         | None => True
                                         end with
                            | eq_refl => I
                            end
                      end)
                     (Expression_nested_ind b))
                  (entries xs)
            end) items)
  | TupleExpr items => P_tuple (all items)
  | SetExpr items => P_set (all items)
  | IndexExpr b i => P_index (Expression_nested_ind b) (Expression_nested_ind i)
  | AssignmentExpr t v =>
      P_assignment (Expression_nested_ind t) (Expression_nested_ind v)
  | Unhashed cls => P_unhashed cls
  end.

End Expression_induction.

Section item_induction.

Variable P : item -> Prop.
Hypothesis P_val : forall v, P (KVal v).
Hypothesis P_node : forall n, P (KNode n).
Hypothesis P_none : P KNone.
Hypothesis P_tuple : forall elts, Forall P elts -> P (KTuple elts).

Fixpoint item_nested_ind (i : item) : P i :=
  match i with
  | KVal v => P_val v
  | KNode n => P_node n
  | KNone => P_none
  | KTuple elts =>
      P_tuple
        ((fix all (l : list item) : Forall P l :=
            match l with
            | [] => Forall_nil P
            | x :: xs => Forall_cons x (item_nested_ind x) (all xs)
            end) elts)
  end.

End item_induction.


(** ** The exception monad *)

Lemma bind_Ok {A B : Type} (m : result A) (k : A -> result B) (b : B) :
  bind m k = Ok b <-> exists a, m = Ok a /\ k a = Ok b.
Proof.
  destruct m as [a | x]; simpl; split.
  - intros H. exists a. auto.
  - intros (a' & E & H). injection E as ->. exact H.
  - discriminate.
  - intros (a & E & _). discriminate E.
Qed.

Ltac bind_inv :=
  repeat match goal with
  | H : bind ?m _ = Ok _ |- _ =>
      let a := fresh "a" in
      let E := fresh "E" in
      apply bind_Ok in H; destruct H as (a & E & H)
  | H : Ok _ = Ok _ |- _ => discriminate H
  | H : Ok _ = Ok _ |- _ => injection H as H
  | H : Raise _ = Ok _ |- _ => discriminate H
  | H : (if ?b then _ else _) = Ok _ |- _ =>
      let E := fresh "E" in destruct b eqn:E
  end.

Lemma mapM_Ok {A B : Type} (f : A -> result B) (l : list A) (ys : list B) :
  mapM f l = Ok ys <-> Forall2 (fun x y => f x = Ok y) l ys.
Proof.
  revert ys. induction l as [| x xs IH]; intros ys; simpl.
  - split; intros H.
    + injection H as <-. constructor.
    + inversion H. reflexivity.
  - split; intros H.
    + bind_inv. subst ys. constructor; [assumption |]. apply IH. assumption.
    + inversion H as [| ? y ? ys' Hx Hxs]; subst.
      rewrite Hx. simpl. apply IH in Hxs. rewrite Hxs. reflexivity.
Qed.

Lemma mapM_returns {A B : Type} (f : A -> result B) (l : list A) :
  Forall (fun x => exists y, f x = Ok y) l -> exists ys, mapM f l = Ok ys.
Proof.
  induction 1 as [| x xs (y & Hy) _ (ys & Hys)]; simpl.
  - eexists. reflexivity.
  - rewrite Hy. simpl. rewrite Hys. simpl. eexists. reflexivity.
Qed.

Lemma mapM_length {A B : Type} (f : A -> result B) (l : list A) (ys : list B) :
  mapM f l = Ok ys -> List.length ys = List.length l.
Proof.
  intros H. apply mapM_Ok in H. symmetry. eapply Forall2_length. eassumption.
Qed.

Lemma allM_true {A : Type} (p : A -> result bool) (l : list A) :
  allM p l = Ok true <-> Forall (fun x => p x = Ok true) l.
Proof.
  induction l as [| x xs IH]; simpl.
  - split; [constructor | reflexivity].
  - split; intros H.
    + apply bind_Ok in H. destruct H as ([|] & E & H); [| discriminate H].
      constructor; [assumption | apply IH; assumption].
    + inversion H as [| ? ? Hx Hxs]; subst. rewrite Hx. simpl.
      apply IH. assumption.
Qed.

Lemma allM_returns {A : Type} (p : A -> result bool) (l : list A) :
  Forall (fun x => exists b, p x = Ok b) l -> exists b, allM p l = Ok b.
Proof.
  induction 1 as [| x xs (b & Hb) _ (bs & Hbs)]; simpl.
  - eexists. reflexivity.
  - rewrite Hb. simpl. destruct b; [rewrite Hbs |]; eexists; reflexivity.
Qed.

(** The builtin [min] returns the minimum of a non-empty sequence. *)
Lemma fold_min_le (cs : list Z) (c : Z) :
  fold_left Z.min cs c <= c /\ Forall (fun x => fold_left Z.min cs c <= x) cs.
Proof.
  revert c. induction cs as [| x xs IH]; intros c; simpl.
  - split; [lia | constructor].
  - destruct (IH (Z.min c x)) as [H1 H2]. split; [lia |].
    constructor; [lia | assumption].
Qed.

Lemma fold_min_In (cs : list Z) (c : Z) :
  fold_left Z.min cs c = c \/ In (fold_left Z.min cs c) cs.
Proof.
  revert c. induction cs as [| x xs IH]; intros c; simpl.
  - left. reflexivity.
  - destruct (IH (Z.min c x)) as [H | H].
    + rewrite H. destruct (Z.min_spec c x) as [[_ ->] | [_ ->]]; auto.
    + auto.
Qed.

Lemma py_min_minimum (cs : list Z) (m : Z) :
  py_min cs = Ok m <-> cs <> [] /\ is_minimum m cs.
Proof.
  unfold py_min, is_minimum. destruct cs as [| c cs'].
  - split; [discriminate | intros [H _]; contradiction].
  - pose proof (fold_min_le cs' c) as [Hc Hall].
    pose proof (fold_min_In cs' c) as Hin.
    split.
    + intros H. injection H as <-. split; [discriminate |]. split.
      * simpl. destruct Hin as [-> | Hin]; auto.
      * constructor; assumption.
    + intros (_ & Hin' & Hle). f_equal.
      inversion Hle as [| ? ? Hmc Hmcs]; subst.
      assert (m <= fold_left Z.min cs' c).
      { destruct Hin as [-> | Hin]; [assumption |].
        rewrite Forall_forall in Hmcs. apply Hmcs. assumption. }
      assert (fold_left Z.min cs' c <= m).
      { destruct Hin' as [<- | Hin']; [assumption |].
        rewrite Forall_forall in Hall. apply Hall. assumption. }
      lia.
Qed.

(** ** Unfolding equations *)

Lemma literal_hash_accept (e : Expression) :
  literal_hash e = accept literal literal_hash e.
Proof. destruct e; reflexivity. Qed.

Lemma literal_fallback (e : Expression) :
  match e with
  | ListExpr _ | DictExpr _ | TupleExpr _ | SetExpr _ | Unhashed _ =>
      literal e = (h <- literal_hash e ;;
                   if truthy h then Ok LITERAL_YES else Ok LITERAL_NO)
  | _ => True
  end.
Proof. destruct e; exact I || reflexivity. Qed.

Lemma literal_comparison (ops : list string) (operands : list Expression) :
  literal (ComparisonExpr ops operands)
  = (cs <- mapM literal operands ;; py_min cs).
Proof. reflexivity. Qed.

Lemma literal_hash_comparison (ops : list string) (operands : list Expression) :
  literal_hash (ComparisonExpr ops operands)
  = (hs <- mapM literal_hash operands ;;
     Ok (Some (tag "Comparison" :: map tag ops ++ map opt_item hs))).
Proof. reflexivity. Qed.

Lemma visit_unhashed_None (cls : unhashed) : visit_unhashed cls = Ok None.
Proof. destruct cls; reflexivity. Qed.

(** ** The range of [literal] *)

Lemma classification_bounds (c : Z) : classification c <-> 0 <= c <= 2.
Proof. unfold classification, LITERAL_NO, LITERAL_TYPE, LITERAL_YES. lia. Qed.

Lemma mapM_literal_range (l : list Expression) (cs : list Z) :
  Forall (fun e => forall c, literal e = Ok c -> classification c) l ->
  mapM literal l = Ok cs -> Forall classification cs.
Proof.
  intros IH H. apply mapM_Ok in H.
  induction H as [| x c xs cs' Hx _ IHl]; constructor.
  - inversion IH; subst. auto.
  - apply IHl. inversion IH; assumption.
Qed.

Lemma literal_range (e : Expression) (c : Z) :
  literal e = Ok c -> classification c.
Proof.
  revert c.
  induction e using Expression_nested_ind; intros c Hc; simpl in Hc;
    try (injection Hc as <-; unfold classification; auto; fail);
    try (apply IHe; exact Hc; fail);
    try (bind_inv; subst c; unfold classification; auto; fail).
  - (* OpExpr *)
    bind_inv. apply IHe1 in E. apply IHe2 in E0.
    apply classification_bounds in E, E0. apply classification_bounds. lia.
  - (* ComparisonExpr *)
    bind_inv. pose proof (mapM_literal_range H E) as Hcs.
    apply py_min_minimum in Hc. destruct Hc as (_ & Hin & _).
    rewrite Forall_forall in Hcs. auto.
  - (* IndexExpr *)
    bind_inv; [apply IHe1; assumption |].
    subst c. unfold classification; auto.
  - (* AssignmentExpr *)
    apply IHe1. exact Hc.
Qed.

(** ** An absent hash is classified No *)

Lemma literal_hash_absent_No (e : Expression) :
  literal_hash e = Ok None -> literal e = Ok LITERAL_NO.
Proof.
  induction e using Expression_nested_ind; intros Hh;
    try (simpl in Hh |- *; rewrite Hh; reflexivity);
    simpl in Hh; unfold visit_star_expr, visit_member_expr, visit_op_expr,
      visit_comparison_expr, visit_unary_expr, visit_name_expr,
      visit_index_expr, visit_assignment_expr in Hh;
    try discriminate Hh; try (bind_inv; discriminate Hh).
  - (* NameExpr *)
    destruct (final_constant _); discriminate Hh.
  - (* IndexExpr *)
    simpl. bind_inv. rewrite E. simpl. rewrite E0. reflexivity.
  - (* AssignmentExpr *)
    simpl. auto.
Qed.

(** ** A literal has a hash *)

Lemma minimum_not_No (cs : list Z) (m : Z) :
  Forall classification cs -> py_min cs = Ok m -> m <> LITERAL_NO ->
  Forall (fun c => c <> LITERAL_NO) cs.
Proof.
  intros Hcs Hm Hne. apply py_min_minimum in Hm.
  destruct Hm as (_ & Hin & Hle).
  rewrite Forall_forall in *. intros c Hc.
  specialize (Hle c Hc). specialize (Hcs _ Hin).
  apply classification_bounds in Hcs. unfold LITERAL_NO in *. lia.
Qed.

Lemma literal_has_hash (e : Expression) (c : Z) :
  literal e = Ok c -> c <> LITERAL_NO ->
  exists k, literal_hash e = Ok (Some k).
Proof.
  revert c.
  induction e using Expression_nested_ind; intros c Hc Hne;
    try (simpl; eexists; reflexivity);
    try (simpl in Hc |- *; bind_inv; [| congruence];
         match goal with
         | Ha : _ = Ok ?a, Ht : truthy ?a = true |- _ =>
             destruct a as [k |]; [| discriminate Ht];
             exists k; exact Ha
         end);
    simpl in Hc; simpl;
    unfold visit_star_expr, visit_member_expr, visit_op_expr,
      visit_comparison_expr, visit_unary_expr, visit_name_expr,
      visit_index_expr, visit_assignment_expr.
  - (* StarExpr *)
    destruct (IHe _ Hc Hne) as (k & ->). simpl. eexists. reflexivity.
  - (* NameExpr *)
    destruct (final_constant _); eexists; reflexivity.
  - (* MemberExpr *)
    destruct (IHe _ Hc Hne) as (k & ->). simpl. eexists. reflexivity.
  - (* OpExpr *)
    bind_inv. subst c.
    pose proof (literal_range _ E) as R1. pose proof (literal_range _ E0) as R2.
    apply classification_bounds in R1, R2. unfold LITERAL_NO in *.
    destruct (IHe1 _ E) as (k1 & ->); [unfold LITERAL_NO; lia |].
    destruct (IHe2 _ E0) as (k2 & ->); [unfold LITERAL_NO; lia |].
    simpl. eexists. reflexivity.
  - (* ComparisonExpr *)
    bind_inv.
    assert (Hcs : Forall classification a).
    { eapply mapM_literal_range; [| exact E].
      apply Forall_forall. intros x _ c'. apply literal_range. }
    pose proof (minimum_not_No Hcs Hc Hne) as Hall.
    assert (Hhs : exists hs, mapM literal_hash operands = Ok hs).
    { apply mapM_returns. apply mapM_Ok in E. clear Hc Hcs.
      induction E as [| x cx xs cs' Hx _ IHl]; constructor.
      - inversion H; subst. inversion Hall; subst.
        destruct (H2 _ Hx) as (k & Hk); [assumption |]. eauto.
      - apply IHl; [inversion H | inversion Hall]; assumption. }
    destruct Hhs as (hs & ->). simpl. eexists. reflexivity.
  - (* UnaryExpr *)
    destruct (IHe _ Hc Hne) as (k & ->). simpl. eexists. reflexivity.
  - (* IndexExpr *)
    bind_inv; [| congruence]. rewrite E. simpl. rewrite E0.
    apply Z.eqb_eq in E0. subst a.
    destruct (IHe1 _ Hc Hne) as (kb & ->).
    destruct (IHe2 _ E) as (ki & ->); [discriminate |].
    simpl. eexists. reflexivity.
  - (* AssignmentExpr *)
    eauto.
Qed.

(** ** Both functions return on well-formed trees *)

Lemma returns_bind {A B : Type} (m : result A) (k : A -> result B) :
  returns m -> (forall a, m = Ok a -> returns (k a)) -> returns (bind m k).
Proof. intros (a & ->) Hk. simpl. apply Hk. reflexivity. Qed.

Lemma Forall_forallb_imp {A : Type} (f : A -> bool) (Q : A -> Prop)
    (l : list A) :
  Forall (fun x => f x = true -> Q x) l -> forallb f l = true -> Forall Q l.
Proof.
  induction 1 as [| x xs Hx _ IH]; simpl; intros Hf; constructor;
    apply andb_true_iff in Hf; destruct Hf; auto.
Qed.

Lemma seq_expr_returns (items : list Expression) (name : string) :
  Forall (fun e => returns (literal e) /\ returns (literal_hash e)) items ->
  returns (seq_expr literal literal_hash items name).
Proof.
  intros H. unfold seq_expr. apply returns_bind.
  - apply allM_returns. eapply Forall_impl; [| exact H].
    intros e ((c & ->) & _). simpl. eexists. reflexivity.
  - intros [|] _; [| eexists; reflexivity].
    apply returns_bind; [| intros; eexists; reflexivity].
    apply mapM_returns. eapply Forall_impl; [| exact H].
    intros e (_ & Hh). exact Hh.
Qed.

Lemma literal_returns_of_hash (e : Expression) :
  returns (literal_hash e) ->
  returns (h <- literal_hash e ;;
           if truthy h then Ok LITERAL_YES else Ok LITERAL_NO).
Proof.
  intros (h & ->). simpl. destruct (truthy h); eexists; reflexivity.
Qed.

Lemma well_formed_returns (e : Expression) :
  well_formed e = true -> returns (literal e) /\ returns (literal_hash e).
Proof.
  induction e using Expression_nested_ind; intros Hwf; simpl in Hwf;
    try (split; simpl; eexists; reflexivity).
  - (* StarExpr *)
    destruct (IHe Hwf) as (Hl & (h & Hh)). split; [exact Hl |].
    simpl. unfold visit_star_expr. rewrite Hh. eexists. reflexivity.
  - (* NameExpr *)
    split; simpl; unfold visit_name_expr; destruct (final_constant _);
      eexists; reflexivity.
  - (* MemberExpr *)
    destruct (IHe Hwf) as (Hl & (h & Hh)). split; [exact Hl |].
    simpl. unfold visit_member_expr. rewrite Hh. eexists. reflexivity.
  - (* OpExpr *)
    apply andb_true_iff in Hwf. destruct Hwf as (W1 & W2).
    destruct (IHe1 W1) as ((c1 & L1) & (h1 & H1)).
    destruct (IHe2 W2) as ((c2 & L2) & (h2 & H2)).
    split; simpl; unfold visit_op_expr.
    + rewrite L1, L2. eexists. reflexivity.
    + rewrite H1, H2. eexists. reflexivity.
  - (* ComparisonExpr *)
    destruct operands as [| o os]; [discriminate Hwf |].
    pose proof (Forall_forallb_imp _ _ H Hwf) as Hall.
    split.
    + rewrite literal_comparison.
      assert (Hcs : returns (mapM literal (o :: os))).
      { apply mapM_returns. eapply Forall_impl; [| exact Hall].
        intros e (Hl & _). exact Hl. }
      destruct Hcs as (cs & Hcs). rewrite Hcs. simpl.
      destruct cs as [| c cs'].
      * apply mapM_length in Hcs. discriminate Hcs.
      * eexists. reflexivity.
    + rewrite literal_hash_comparison. apply returns_bind.
      * apply mapM_returns. eapply Forall_impl; [| exact Hall].
        intros e (_ & Hh). exact Hh.
      * intros. eexists. reflexivity.
  - (* UnaryExpr *)
    destruct (IHe Hwf) as (Hl & (h & Hh)). split; [exact Hl |].
    simpl. unfold visit_unary_expr. rewrite Hh. eexists. reflexivity.
  - (* ListExpr *)
    pose proof (Forall_forallb_imp _ _ H Hwf) as Hall.
    assert (Hh : returns (literal_hash (ListExpr items)))
      by (apply seq_expr_returns; exact Hall).
    split; [apply (literal_returns_of_hash _ Hh) | exact Hh].
  - (* DictExpr *)
    assert (Hall : Forall (fun ab =>
              (forall a, fst ab = Some a ->
                         returns (literal a) /\ returns (literal_hash a))
              /\ returns (literal (snd ab))
              /\ returns (literal_hash (snd ab))) items).
    { clear - H Hwf. induction H as [| ab xs (Ha & Hb) _ IH];
        constructor; simpl in Hwf; apply andb_true_iff in Hwf;
        destruct Hwf as (W & Ws); [| auto].
      apply andb_true_iff in W. destruct W as (Wa & Wb).
      split; [| auto].
      intros a Ea. rewrite Ea in Wa. auto. }
    assert (Hh : returns (literal_hash (DictExpr items))).
    { simpl. unfold visit_dict_expr. apply returns_bind.
      - apply allM_returns. eapply Forall_impl; [| exact Hall].
        intros (oa, b) (Ha & (cb & Lb) & _). simpl in *.
        destruct oa as [a |]; [| eexists; reflexivity].
        destruct (Ha a eq_refl) as ((ca & La) & _).
        rewrite La, Lb. eexists. reflexivity.
      - intros [|] _; [| eexists; reflexivity].
        apply returns_bind; [| intros; eexists; reflexivity].
        apply mapM_returns. eapply Forall_impl; [| exact Hall].
        intros (oa, b) (Ha & _ & (hb & Hb)). simpl in *.
        destruct oa as [a |].
        + destruct (Ha a eq_refl) as (_ & (ha & Hha)).
          rewrite Hha, Hb. eexists. reflexivity.
        + rewrite Hb. eexists. reflexivity. }
    split; [apply (literal_returns_of_hash _ Hh) | exact Hh].
  - (* TupleExpr *)
    pose proof (Forall_forallb_imp _ _ H Hwf) as Hall.
    assert (Hh : returns (literal_hash (TupleExpr items)))
      by (apply seq_expr_returns; exact Hall).
    split; [apply (literal_returns_of_hash _ Hh) | exact Hh].
  - (* SetExpr *)
    pose proof (Forall_forallb_imp _ _ H Hwf) as Hall.
    assert (Hh : returns (literal_hash (SetExpr items)))
      by (apply seq_expr_returns; exact Hall).
    split; [apply (literal_returns_of_hash _ Hh) | exact Hh].
  - (* IndexExpr *)
    apply andb_true_iff in Hwf. destruct Hwf as (W1 & W2).
    destruct (IHe1 W1) as ((c1 & L1) & (h1 & H1)).
    destruct (IHe2 W2) as ((c2 & L2) & (h2 & H2)).
    split; simpl; unfold visit_index_expr; rewrite L2; simpl;
      destruct (c2 =? LITERAL_YES); try rewrite L1; try rewrite H1, H2;
      eexists; reflexivity.
  - (* AssignmentExpr *)
    apply andb_true_iff in Hwf. destruct Hwf as (W1 & _).
    destruct (IHe1 W1) as (L1 & H1). split; assumption.
  - (* Unhashed *)
    split; simpl; rewrite visit_unhashed_None; eexists; reflexivity.
Qed.

(** ** The scenarios of the specification *)

Example hash_of_list_with_call :
  literal_hash (ListExpr [IntExpr 1; IntExpr 2; Unhashed CallExpr]) = Ok None.
Proof. reflexivity. Qed.

Example hash_of_constant_list :
  literal_hash (ListExpr [IntExpr 1; IntExpr 2])
  = Ok (Some [tag "List"; KTuple [tag "Literal"; KVal (VInt 1)];
              KTuple [tag "Literal"; KVal (VInt 2)]]).
Proof. reflexivity. Qed.

Lemma hash_of_inline_assignment (target value : Expression) :
  literal_hash (AssignmentExpr target value) = literal_hash target
  /\ literal (AssignmentExpr target value) = literal target.
Proof. split; reflexivity. Qed.

Example hash_of_member_indexed_by_call :
  let a := NameExpr "a" (Some (VarNode (mkVar 1 false None))) in
  literal_hash (IndexExpr (MemberExpr a "b") (Unhashed CallExpr)) = Ok None
  /\ literal_hash (MemberExpr a "b")
     = Ok (Some [tag "Member";
                 KTuple [tag "Var"; KNode (VarNode (mkVar 1 false None))];
                 KVal (VStr "b")]).
Proof. split; reflexivity. Qed.

Example int_and_float_keys_agree :
  key_eqb [tag "Literal"; KVal (VInt 3)]
          [tag "Literal";
           KVal (VFloat (S754_finite false 6755399441055744 (-51)))]
  = true.
Proof. reflexivity. Qed.

Example str_and_bytes_keys_differ :
  key_eqb [tag "Literal"; KVal (VStr "a")]
          [tag "Literal"; KVal (VBytes [Byte.x61])]
  = false.
Proof. reflexivity. Qed.

(** Two variables with the same name and different identities have
    different Keys. *)
Lemma shadowed_names_differ (name : string) (v w : Var) (kv kw : Key) :
  var_id v <> var_id w ->
  final_constant (Some (VarNode v)) = None ->
  final_constant (Some (VarNode w)) = None ->
  literal_hash (NameExpr name (Some (VarNode v))) = Ok (Some kv) ->
  literal_hash (NameExpr name (Some (VarNode w))) = Ok (Some kw) ->
  key_eqb kv kw = false.
Proof.
  intros Hid Hv Hw. simpl. unfold visit_name_expr. rewrite Hv, Hw.
  intros Ekv Ekw. injection Ekv as <-. injection Ekw as <-.
  simpl. unfold node_is. simpl. apply Pos.eqb_neq in Hid. rewrite Hid.
  reflexivity.
Qed.

Example subkeys_of_index :
  subkeys [tag "Index"; KTuple [tag "Var"; KNone];
           KTuple [tag "Literal"; KVal (VInt 0)]]
  = [[tag "Var"; KNone]; [tag "Literal"; KVal (VInt 0)]].
Proof. reflexivity. Qed.

(** ** Names bound to final constants *)

(** C10: a name resolved to a final variable with the recorded constant
    value [v] is classified Yes and hashes to the Key ("Literal", v), which
    is also the Key of the scalar literal expression for [v]; so a name and
    a literal expression, two different expressions, have equal Keys. *)
Theorem final_name_hashes_as_its_value
    (name : string) (var : Var) (v : value) :
  is_final var = true ->
  final_value var = Some v ->
  let e := NameExpr name (Some (VarNode var)) in
  literal e = Ok LITERAL_YES
  /\ literal_hash e = Ok (Some [tag "Literal"; KVal v])
  /\ literal_hash (scalar_expr v) = Ok (Some [tag "Literal"; KVal v])
  /\ e <> scalar_expr v.
Proof.
  intros Hfinal Hvalue e. subst e. simpl. unfold visit_name_expr. simpl.
  rewrite Hfinal, Hvalue. repeat split.
  - destruct v; reflexivity.
  - destruct v; discriminate.
Qed.

Lemma final_name_hashes_as_its_value_witness :
  let var := mkVar 7 true (Some (VInt 3)) in
  literal (NameExpr "MAX" (Some (VarNode var))) = Ok LITERAL_YES
  /\ literal_hash (NameExpr "MAX" (Some (VarNode var)))
     = Ok (Some [tag "Literal"; KVal (VInt 3)])
  /\ literal_hash (IntExpr 3) = Ok (Some [tag "Literal"; KVal (VInt 3)])
  /\ NameExpr "MAX" (Some (VarNode var)) <> IntExpr 3.
Proof.
  exact (@final_name_hashes_as_its_value "MAX"
           (mkVar 7 true (Some (VInt 3))) (VInt 3) eq_refl eq_refl).
Defined.

(** ** Index expressions *)

(** C4: when the index is classified Yes, the index expression hashes to
    ("Index", hash(base), hash(index)) and is classified as its base;
    when the index has any other classification the hash is absent and the
    classification is No. *)
Theorem index_gating (base index : Expression) (c : Z) :
  literal index = Ok c ->
  (c = LITERAL_YES ->
   literal (IndexExpr base index) = literal base
   /\ exists ki,
        literal_hash index = Ok (Some ki)
        /\ forall hb,
             literal_hash base = Ok hb ->
             literal_hash (IndexExpr base index)
             = Ok (Some [tag "Index"; opt_item hb; KTuple ki]))
  /\ (c <> LITERAL_YES ->
      literal (IndexExpr base index) = Ok LITERAL_NO
      /\ literal_hash (IndexExpr base index) = Ok None).
Proof.
  intros Hc. split.
  - intros ->. split.
    + simpl. rewrite Hc. reflexivity.
    + destruct (literal_has_hash _ Hc) as (ki & Hki); [discriminate |].
      exists ki. split; [exact Hki |]. intros hb Hb.
      simpl. unfold visit_index_expr. rewrite Hc. simpl.
      rewrite Hb, Hki. reflexivity.
  - intros Hne. apply Z.eqb_neq in Hne.
    simpl. unfold visit_index_expr. rewrite Hc. simpl. rewrite Hne.
    split; reflexivity.
Qed.

Lemma index_gating_witness :
  let base := NameExpr "xs" (Some (VarNode (mkVar 1 false None))) in
  literal (IntExpr 0) = Ok 2
  /\ literal_hash (IndexExpr base (IntExpr 0))
     = Ok (Some [tag "Index";
                 KTuple [tag "Var"; KNode (VarNode (mkVar 1 false None))];
                 KTuple [tag "Literal"; KVal (VInt 0)]]).
Proof.
  split; [reflexivity |].
  destruct (@index_gating
              (NameExpr "xs" (Some (VarNode (mkVar 1 false None))))
              (IntExpr 0) 2 eq_refl) as (Hyes & _).
  destruct (Hyes eq_refl) as (_ & ki & Hki & Hkey).
  injection Hki as <-.
  exact (Hkey (Some [tag "Var"; KNode (VarNode (mkVar 1 false None))])
           eq_refl).
Defined.

(** ** List, tuple and set displays *)

Lemma literal_hash_display (d : display) (items : list Expression) :
  literal_hash (display_expr d items)
  = seq_expr literal literal_hash items (display_name d).
Proof. destruct d; reflexivity. Qed.

Lemma all_yes_dec (cs : list Z) :
  {Forall (fun c => c = LITERAL_YES) cs}
  + {~ Forall (fun c => c = LITERAL_YES) cs}.
Proof. apply Forall_dec. intros c. apply Z.eq_dec. Qed.

Lemma allM_yes (items : list Expression) (cs : list Z) :
  mapM literal items = Ok cs ->
  allM (fun x => c <- literal x ;; Ok (c =? LITERAL_YES)) items
  = Ok (if all_yes_dec cs then true else false).
Proof.
  intros H. apply mapM_Ok in H.
  induction H as [| x c xs cs' Hx Hxs IH]; simpl.
  - destruct (all_yes_dec []) as [_ | N]; [reflexivity |].
    exfalso. apply N. constructor.
  - rewrite Hx. simpl. destruct (Z.eqb_spec c LITERAL_YES) as [-> | Hne].
    + rewrite IH.
      destruct (all_yes_dec cs') as [Y | N];
        destruct (all_yes_dec (LITERAL_YES :: cs')) as [Y' | N'];
        try reflexivity; exfalso.
      * apply N'. constructor; [reflexivity | assumption].
      * apply N. inversion Y'; assumption.
    + destruct (all_yes_dec (c :: cs')) as [Y | N]; [| reflexivity].
      inversion Y; contradiction.
Qed.

Lemma mapM_hash_present (items : list Expression) (cs : list Z) :
  mapM literal items = Ok cs ->
  Forall (fun c => c <> LITERAL_NO) cs ->
  exists ks,
    Forall2 (fun x k => literal_hash x = Ok (Some k)) items ks
    /\ mapM literal_hash items = Ok (map Some ks).
Proof.
  intros H. apply mapM_Ok in H.
  induction H as [| x c xs cs' Hx Hxs IH]; intros Hne.
  - exists []. split; [constructor | reflexivity].
  - inversion Hne as [| ? ? Hc Hcs]; subst.
    destruct (literal_has_hash _ Hx Hc) as (k & Hk).
    destruct (IH Hcs) as (ks & Hks & Hm).
    exists (k :: ks). split; [constructor; assumption |].
    simpl. rewrite Hk. simpl. simpl in Hm. rewrite Hm. reflexivity.
Qed.

Lemma map_opt_item_Some (ks : list Key) :
  map opt_item (map Some ks) = map KTuple ks.
Proof. rewrite map_map. reflexivity. Qed.

(** C5: given that every element has a classification, a list, tuple or
    set display hashes to a present Key exactly when every element is
    classified Yes; the Key is then the tag followed by the hashes of the
    elements in order, and otherwise the hash is absent. *)
Theorem collection_gating (d : display) (items : list Expression)
    (cs : list Z) :
  mapM literal items = Ok cs ->
  (Forall (fun c => c = LITERAL_YES) cs ->
   exists ks,
     Forall2 (fun x k => literal_hash x = Ok (Some k)) items ks
     /\ literal_hash (display_expr d items)
        = Ok (Some (tag (display_name d) :: map KTuple ks)))
  /\ (~ Forall (fun c => c = LITERAL_YES) cs ->
      literal_hash (display_expr d items) = Ok None)
  /\ ((exists k, literal_hash (display_expr d items) = Ok (Some k))
      <-> Forall (fun c => c = LITERAL_YES) cs).
Proof.
  intros Hcs.
  assert (Hyes : Forall (fun c => c = LITERAL_YES) cs ->
                 exists ks,
                   Forall2 (fun x k => literal_hash x = Ok (Some k)) items ks
                   /\ literal_hash (display_expr d items)
                      = Ok (Some (tag (display_name d) :: map KTuple ks))).
  { intros Y.
    destruct (@mapM_hash_present items cs Hcs) as (ks & Hks & Hm).
    { eapply Forall_impl; [| exact Y]. intros c ->. discriminate. }
    exists ks. split; [exact Hks |].
    rewrite literal_hash_display. unfold seq_expr.
    rewrite (allM_yes _ Hcs).
    destruct (all_yes_dec cs) as [_ | N]; [| contradiction].
    simpl. rewrite Hm. simpl. rewrite map_opt_item_Some. reflexivity. }
  assert (Hno : ~ Forall (fun c => c = LITERAL_YES) cs ->
                literal_hash (display_expr d items) = Ok None).
  { intros N. rewrite literal_hash_display. unfold seq_expr.
    rewrite (allM_yes _ Hcs).
    destruct (all_yes_dec cs) as [Y | _]; [contradiction | reflexivity]. }
  split; [exact Hyes |]. split; [exact Hno |]. split.
  - intros (k & Hk). destruct (all_yes_dec cs) as [Y | N]; [exact Y |].
    rewrite (Hno N) in Hk. discriminate Hk.
  - intros Y. destruct (Hyes Y) as (ks & _ & Hk). eauto.
Qed.

Lemma collection_gating_witness :
  mapM literal [IntExpr 1; IntExpr 2; Unhashed CallExpr] = Ok [2; 2; 0]
  /\ literal_hash (ListExpr [IntExpr 1; IntExpr 2; Unhashed CallExpr])
     = Ok None.
Proof.
  split; [reflexivity |].
  apply (@collection_gating ListDisplay
           [IntExpr 1; IntExpr 2; Unhashed CallExpr] [2; 2; 0] eq_refl).
  intros Y. inversion Y as [| ? ? _ Y1]. inversion Y1 as [| ? ? _ Y2].
  inversion Y2 as [| ? ? Y3 _]. discriminate Y3.
Defined.

(** ** Dict displays *)

(** The test [a and literal(a) == literal(b) == LITERAL_YES] on one entry. *)
Lemma entry_test_true (ab : option Expression * Expression) :
  match fst ab with
  | None => Ok false
  | Some a =>
      ca <- literal a ;;
      cb <- literal (snd ab) ;;
      Ok ((ca =? cb) && (cb =? LITERAL_YES))%bool
  end = Ok true
  <-> entry_yes ab.
Proof.
  unfold entry_yes. destruct ab as (oa, b). simpl. split.
  - destruct oa as [a |]; [| discriminate].
    intros H. bind_inv. apply andb_true_iff in H. destruct H as (H1 & H2).
    apply Z.eqb_eq in H1, H2. subst. exists a. auto.
  - intros (a & -> & La & Lb). rewrite La, Lb. reflexivity.
Qed.

Lemma entry_test_returns (ab : option Expression * Expression) :
  entry_classified ab ->
  returns match fst ab with
          | None => Ok false
          | Some a =>
              ca <- literal a ;;
              cb <- literal (snd ab) ;;
              Ok ((ca =? cb) && (cb =? LITERAL_YES))%bool
          end.
Proof.
  destruct ab as (oa, b). intros (Ha & (cb & Hb)). simpl in *.
  destruct oa as [a |]; [| eexists; reflexivity].
  destruct (Ha a eq_refl) as (ca & Hca). rewrite Hca, Hb.
  eexists. reflexivity.
Qed.

Lemma entries_hash_present (items : list (option Expression * Expression)) :
  Forall entry_yes items ->
  exists pairs,
    Forall2 entry_pair items pairs
    /\ mapM (fun ab =>
               ha <- match fst ab with
                     | Some a => literal_hash a
                     | None => Ok None
                     end ;;
               hb <- literal_hash (snd ab) ;;
               Ok (KTuple [opt_item ha; opt_item hb])) items
       = Ok pairs.
Proof.
  induction 1 as [| ab xs (a & Ea & La & Lb) _ (pairs & Hp & Hm)].
  - exists []. split; [constructor | reflexivity].
  - destruct (literal_has_hash _ La) as (ka & Hka); [discriminate |].
    destruct (literal_has_hash _ Lb) as (kb & Hkb); [discriminate |].
    exists (KTuple [KTuple ka; KTuple kb] :: pairs). split.
    + constructor; [| exact Hp]. exists a, ka, kb. auto.
    + simpl. rewrite Ea, Hka. simpl. rewrite Hkb. simpl.
      simpl in Hm. rewrite Hm. reflexivity.
Qed.

(** C6: given that the keys and values of all entries have a
    classification, a dict display hashes to a present Key exactly when
    every entry has an explicit key and its key and value are both
    classified Yes; the Key is then the tag followed by the pairs
    (key hash, value hash) in order.  Otherwise, and so whenever an entry
    has no explicit key, the hash is absent. *)
Theorem mapping_gating (items : list (option Expression * Expression)) :
  Forall entry_classified items ->
  (Forall entry_yes items ->
   exists pairs,
     Forall2 entry_pair items pairs
     /\ literal_hash (DictExpr items) = Ok (Some (tag "Dict" :: pairs)))
  /\ (~ Forall entry_yes items -> literal_hash (DictExpr items) = Ok None)
  /\ (forall b, In (None, b) items -> literal_hash (DictExpr items) = Ok None)
  /\ ((exists k, literal_hash (DictExpr items) = Ok (Some k))
      <-> Forall entry_yes items).
Proof.
  intros Hcl.
  assert (Hyes : Forall entry_yes items ->
                 exists pairs,
                   Forall2 entry_pair items pairs
                   /\ literal_hash (DictExpr items)
                      = Ok (Some (tag "Dict" :: pairs))).
  { intros Y. destruct (entries_hash_present Y) as (pairs & Hp & Hm).
    exists pairs. split; [exact Hp |].
    simpl. unfold visit_dict_expr.
    assert (Hall : allM (fun ab =>
                match fst ab with
                | None => Ok false
                | Some a =>
                    ca <- literal a ;;
                    cb <- literal (snd ab) ;;
                    Ok ((ca =? cb) && (cb =? LITERAL_YES))%bool
                end) items = Ok true).
    { apply allM_true. eapply Forall_impl; [| exact Y].
      intros ab. apply entry_test_true. }
    rewrite Hall. simpl. rewrite Hm. reflexivity. }
  assert (Hno : ~ Forall entry_yes items ->
                literal_hash (DictExpr items) = Ok None).
  { intros N. simpl. unfold visit_dict_expr.
    destruct (@allM_returns _ (fun ab =>
                match fst ab with
                | None => Ok false
                | Some a =>
                    ca <- literal a ;;
                    cb <- literal (snd ab) ;;
                    Ok ((ca =? cb) && (cb =? LITERAL_YES))%bool
                end) items) as (b & Hb).
    { eapply Forall_impl; [| exact Hcl]. intros ab. apply entry_test_returns. }
    rewrite Hb. destruct b; [| reflexivity].
    exfalso. apply N. apply allM_true in Hb.
    eapply Forall_impl; [| exact Hb]. intros ab. apply entry_test_true. }
  split; [exact Hyes |]. split; [exact Hno |]. split; [| split].
  - intros b Hin. apply Hno. intros Y. rewrite Forall_forall in Y.
    destruct (Y _ Hin) as (a & Ea & _). discriminate Ea.
  - intros (k & Hk).
    destruct (@allM_returns _ (fun ab =>
                match fst ab with
                | None => Ok false
                | Some a =>
                    ca <- literal a ;;
                    cb <- literal (snd ab) ;;
                    Ok ((ca =? cb) && (cb =? LITERAL_YES))%bool
                end) items) as (b & Hb).
    { eapply Forall_impl; [| exact Hcl]. intros ab. apply entry_test_returns. }
    simpl in Hk. unfold visit_dict_expr in Hk. rewrite Hb in Hk.
    destruct b; [| discriminate Hk].
    apply allM_true in Hb.
    eapply Forall_impl; [| exact Hb]. intros ab. apply entry_test_true.
  - intros Y. destruct (Hyes Y) as (pairs & _ & Hk). eauto.
Qed.

Lemma mapping_gating_witness :
  let items := [(Some (StrExpr "a"), IntExpr 1); (None, IntExpr 2)] in
  Forall entry_classified items
  /\ literal_hash (DictExpr items) = Ok None.
Proof.
  assert (H : Forall entry_classified
                [(Some (StrExpr "a"), IntExpr 1); (None, IntExpr 2)]).
  { repeat constructor; simpl.
    - intros a E. injection E as <-. exists 2. reflexivity.
    - exists 2. reflexivity.
    - intros a E. discriminate E.
    - exists 2. reflexivity. }
  split; [exact H |].
  apply (mapping_gating H) with (b := IntExpr 2). simpl. auto.
Defined.

(** ** Comparison chains and binary operators *)

Lemma mapM_literal_classified (l : list Expression) (cs : list Z) :
  mapM literal l = Ok cs -> Forall classification cs.
Proof.
  apply mapM_literal_range. apply Forall_forall.
  intros x _ c. apply literal_range.
Qed.

Lemma mapM_In {A B : Type} (f : A -> result B) (l : list A) (ys : list B)
    (x : A) :
  mapM f l = Ok ys -> In x l -> exists y, f x = Ok y /\ In y ys.
Proof.
  intros H. apply mapM_Ok in H.
  induction H as [| x' y xs ys' Hx _ IH]; simpl; intros Hin.
  - contradiction.
  - destruct Hin as [-> | Hin].
    + exists y. auto.
    + destruct (IH Hin) as (y' & Hy' & Hin'). exists y'. auto.
Qed.

Lemma literal_operands (e : Expression) (operands : list Expression) :
  operands_of e = Some operands ->
  literal e = (cs <- mapM literal operands ;; py_min cs).
Proof.
  destruct e; simpl; intros H; try discriminate H; injection H as <-.
  - (* OpExpr *)
    simpl. destruct (literal e1) as [c1 |]; [| reflexivity]. simpl.
    destruct (literal e2) as [c2 |]; reflexivity.
  - (* ComparisonExpr *)
    reflexivity.
Qed.

(** C7: the classification of a comparison chain, and of a binary
    operator expression, is the minimum of the classifications of its
    operands for the ordering No < Unknown-but-stable < Yes; a chain with
    a call expression among its operands is therefore classified No. *)
Theorem classification_is_minimum (e : Expression)
    (operands : list Expression) (cs : list Z) (m : Z) :
  operands_of e = Some operands ->
  mapM literal operands = Ok cs ->
  is_minimum m cs ->
  literal e = Ok m
  /\ LITERAL_NO < LITERAL_TYPE < LITERAL_YES
  /\ (forall l r, operands = [l; r] ->
      exists cl cr, literal l = Ok cl /\ literal r = Ok cr
                    /\ m = Z.min cl cr)
  /\ (In (Unhashed CallExpr) operands -> m = LITERAL_NO).
Proof.
  intros Hops Hcs Hmin.
  assert (Hm : py_min cs = Ok m).
  { apply py_min_minimum. split; [| exact Hmin].
    destruct Hmin as (Hin & _). intros ->. contradiction. }
  split.
  { rewrite (literal_operands _ Hops), Hcs. exact Hm. }
  split; [unfold LITERAL_NO, LITERAL_TYPE, LITERAL_YES; lia |]. split.
  - intros l r ->. simpl in Hcs.
    destruct (literal l) as [cl |]; [| discriminate Hcs].
    destruct (literal r) as [cr |]; [| discriminate Hcs].
    simpl in Hcs. injection Hcs as <-.
    exists cl, cr. repeat split.
    simpl in Hm. injection Hm as <-. reflexivity.
  - intros Hin. destruct (mapM_In _ _ _ Hcs Hin) as (c & Hc & Hc').
    simpl in Hc. injection Hc as <-.
    destruct Hmin as (Hin' & Hle). rewrite Forall_forall in Hle.
    specialize (Hle _ Hc').
    pose proof (mapM_literal_classified _ Hcs) as Hall.
    rewrite Forall_forall in Hall. specialize (Hall _ Hin').
    apply classification_bounds in Hall. unfold LITERAL_NO in *. lia.
Qed.

Lemma classification_is_minimum_witness :
  let x := NameExpr "x" (Some (VarNode (mkVar 1 false None))) in
  mapM literal [IntExpr 1; Unhashed CallExpr; x] = Ok [2; 0; 1]
  /\ is_minimum 0 [2; 0; 1]
  /\ literal (ComparisonExpr ["<"; "<"] [IntExpr 1; Unhashed CallExpr; x])
     = Ok LITERAL_NO.
Proof.
  intros x.
  assert (Hmin : is_minimum 0 [2; 0; 1]).
  { split; [simpl; auto | repeat constructor; lia]. }
  split; [reflexivity |]. split; [exact Hmin |].
  apply (@classification_is_minimum
           (ComparisonExpr ["<"; "<"] [IntExpr 1; Unhashed CallExpr; x])
           [IntExpr 1; Unhashed CallExpr; x] [2; 0; 1] 0
           eq_refl eq_refl Hmin).
Defined.

(** ** Totality *)

(** A comparison chain without operands is not a tree of the grammar:
    the parser builds a chain with one operand more than it has
    operators.  On such a value [literal] would raise the ValueError of
    [min], and so would [literal_hash] on a display that contains it. *)
Lemma literal_raises_on_empty_chain :
  literal (ComparisonExpr [] []) = Raise ValueError
  /\ literal_hash (ListExpr [ComparisonExpr [] []]) = Raise ValueError
  /\ ~ (forall e, returns (literal e) /\ returns (literal_hash e)).
Proof.
  split; [reflexivity |]. split; [reflexivity |].
  intros H. destruct (H (ComparisonExpr [] [])) as ((c & Hc) & _).
  discriminate Hc.
Qed.

(** The two functions raise on no tree of the grammar. *)
Lemma raises_only_without_operands (e : Expression) (x : exn) :
  literal e = Raise x \/ literal_hash e = Raise x -> well_formed e = false.
Proof.
  intros H. destruct (well_formed e) eqn:Hwf; [| reflexivity].
  destruct (well_formed_returns e Hwf) as ((c & Hc) & (h & Hh)).
  destruct H as [H | H]; [rewrite Hc in H | rewrite Hh in H];
    discriminate H.
Qed.

(** C9: on every finite expression tree of the grammar, in which every
    comparison chain has its operands, [literal] returns one of the three
    classifications and [literal_hash] returns a Key or [None], without
    raising.  Both are defined by structural recursion, the mutual
    recursion between them descending into sub-expressions only, with a
    case for every expression class; the classes without a hashing rule
    yield No and [None]. *)
Theorem literal_total_on_well_formed (e : Expression) :
  well_formed e = true ->
  exists c h,
    literal e = Ok c
    /\ classification c
    /\ literal_hash e = Ok h
    /\ (forall cls, e = Unhashed cls -> c = LITERAL_NO /\ h = None).
Proof.
  intros Hwf. destruct (well_formed_returns e Hwf) as ((c & Hc) & (h & Hh)).
  exists c, h. split; [exact Hc |]. split; [exact (literal_range _ Hc) |].
  split; [exact Hh |].
  intros cls ->. simpl in Hc, Hh. rewrite visit_unhashed_None in Hc, Hh.
  simpl in Hc. injection Hc as <-. injection Hh as <-. split; reflexivity.
Qed.

Lemma literal_total_on_well_formed_witness :
  well_formed (ComparisonExpr ["<"] [IntExpr 1; Unhashed LambdaExpr]) = true
  /\ exists c h,
       literal (ComparisonExpr ["<"] [IntExpr 1; Unhashed LambdaExpr]) = Ok c
       /\ classification c
       /\ literal_hash (ComparisonExpr ["<"] [IntExpr 1; Unhashed LambdaExpr])
          = Ok h.
Proof.
  split; [reflexivity |].
  destruct (@literal_total_on_well_formed
              (ComparisonExpr ["<"] [IntExpr 1; Unhashed LambdaExpr]) eq_refl)
    as (c & h & Hc & Hcl & Hh & _).
  exists c, h. auto.
Defined.

(** ** The scenario [x[(i, j+1)].m] *)

(** C3, failing input: with three plain variables, the expression
    [x[(i, j+1)].m], which the note at the head of the module gives as a
    typical literal, is not classified Unknown-but-stable and its hash is
    not the nested Key of the specification. *)
Lemma typical_literal_scenario_fails :
  let x := Some (VarNode (mkVar 1 false None)) in
  let i := Some (VarNode (mkVar 2 false None)) in
  let j := Some (VarNode (mkVar 3 false None)) in
  let e := MemberExpr
             (IndexExpr (NameExpr "x" x)
                (TupleExpr [NameExpr "i" i;
                            OpExpr "+" (NameExpr "j" j) (IntExpr 1)])) "m" in
  literal e <> Ok LITERAL_TYPE
  /\ literal_hash e
     <> Ok (Some [tag "Member";
                  KTuple [tag "Index";
                          KTuple [tag "Var"; node_item x];
                          KTuple [tag "Tuple";
                                  KTuple [tag "Var"; node_item i];
                                  KTuple [tag "Binary"; KVal (VStr "+");
                                          KTuple [tag "Var"; node_item j];
                                          KTuple [tag "Literal";
                                                  KVal (VInt 1)]]]];
                  KVal (VStr "m")]).
Proof. split; discriminate. Qed.

(** C3, what the code computes: for [x[(i, j+1)].m] with plain
    variables [x], [i] and [j], the tuple index is classified No, because
    [seq_expr] asks every element to be Yes and [i] is only
    Unknown-but-stable; so the index expression hashes to [None],
    [literal] returns No and [literal_hash] returns the Key
    ("Member", None, "m"), where the specification and the note at the
    head of the module expect a literal with the nested Key. *)
Theorem typical_literal_scenario
    (nx ni nj : string) (x i j : option SymbolNode) :
  final_constant x = None ->
  final_constant i = None ->
  final_constant j = None ->
  let index := TupleExpr [NameExpr ni i;
                          OpExpr "+" (NameExpr nj j) (IntExpr 1)] in
  let e := MemberExpr (IndexExpr (NameExpr nx x) index) "m" in
  literal index = Ok LITERAL_NO
  /\ literal_hash (IndexExpr (NameExpr nx x) index) = Ok None
  /\ literal e = Ok LITERAL_NO
  /\ literal_hash e = Ok (Some [tag "Member"; KNone; KVal (VStr "m")]).
Proof.
  intros Hx Hi Hj index e.
  assert (Htuple : literal_hash index = Ok None).
  { subst index. simpl. unfold visit_tuple_expr, seq_expr. simpl.
    rewrite Hi. reflexivity. }
  assert (Hindex : literal index = Ok LITERAL_NO).
  { apply literal_hash_absent_No. exact Htuple. }
  assert (Hsub : literal_hash (IndexExpr (NameExpr nx x) index) = Ok None).
  { simpl. unfold visit_index_expr. rewrite Hindex. reflexivity. }
  split; [exact Hindex |]. split; [exact Hsub |]. split.
  - apply literal_hash_absent_No in Hsub. exact Hsub.
  - subst e. rewrite literal_hash_accept. unfold accept, visit_member_expr.
    rewrite Hsub. reflexivity.
Qed.

Lemma typical_literal_scenario_witness :
  let x := Some (VarNode (mkVar 1 false None)) in
  let i := Some (VarNode (mkVar 2 false None)) in
  let j := Some (VarNode (mkVar 3 false None)) in
  let e := MemberExpr
             (IndexExpr (NameExpr "x" x)
                (TupleExpr [NameExpr "i" i;
                            OpExpr "+" (NameExpr "j" j) (IntExpr 1)])) "m" in
  literal e = Ok LITERAL_NO
  /\ literal_hash e = Ok (Some [tag "Member"; KNone; KVal (VStr "m")]).
Proof.
  destruct (@typical_literal_scenario "x" "i" "j"
              (Some (VarNode (mkVar 1 false None)))
              (Some (VarNode (mkVar 2 false None)))
              (Some (VarNode (mkVar 3 false None)))
              eq_refl eq_refl eq_refl) as (_ & _ & Hl & Hh).
  split; [exact Hl | exact Hh].
Defined.

(** ** [extract_var_from_literal_hash] *)

Lemma extract_var_other_tag (s : string) (rest : list item) :
  String.eqb s "Var" = false ->
  extract_var_from_literal_hash (tag s :: rest) = None.
Proof.
  intros Hs. destruct rest as [| k1 [| k2 rest]]; try reflexivity.
  unfold extract_var_from_literal_hash, tag, item_eqb, value_eqb,
    value_same, value_equal.
  rewrite Hs. reflexivity.
Qed.

(** C8, counterexample: the Key of an inline assignment [y := 1], which
    is not a bare variable reference, yields the variable [y]. *)
Lemma extract_var_of_inline_assignment :
  let y := mkVar 1 false None in
  ~ (forall e k,
       (forall name node, e <> NameExpr name node) ->
       literal_hash e = Ok (Some k) ->
       extract_var_from_literal_hash k = None).
Proof.
  intros y H.
  specialize (H (AssignmentExpr (NameExpr "y" (Some (VarNode y))) (IntExpr 1))
                [tag "Var"; KNode (VarNode y)]).
  discriminate H; [intros name node; discriminate | reflexivity].
Qed.

(** C8, amended: for the Key of any expression,
    [extract_var_from_literal_hash] returns the variable of the name that
    the expression is, or is an inline assignment to, provided that name
    is resolved to a [Var] which is not a final constant; for every other
    Key it returns [None]. *)
Theorem extract_var_of_literal_hash (e : Expression) (k : Key) :
  literal_hash e = Ok (Some k) ->
  extract_var_from_literal_hash k = referenced_var (assigned_target e).
Proof.
  revert k.
  induction e using Expression_nested_ind; intros k Hk; simpl in Hk;
    unfold visit_int_expr, visit_str_expr, visit_bytes_expr,
      visit_float_expr, visit_complex_expr, visit_star_expr,
      visit_member_expr, visit_op_expr, visit_comparison_expr,
      visit_unary_expr, visit_list_expr, visit_tuple_expr, visit_set_expr,
      seq_expr, visit_dict_expr, visit_index_expr, visit_assignment_expr
      in Hk;
    try (bind_inv; subst k; reflexivity);
    try (bind_inv; subst k; apply extract_var_other_tag; reflexivity).
  - (* NameExpr *)
    unfold visit_name_expr in Hk. simpl.
    destruct node as [[v | id] |]; simpl in *.
    + destruct (is_final v); [destruct (final_value v) |];
        injection Hk as <-; reflexivity.
    + injection Hk as <-. reflexivity.
    + injection Hk as <-. reflexivity.
  - (* AssignmentExpr *)
    simpl. apply IHe1. exact Hk.
  - (* Unhashed *)
    rewrite visit_unhashed_None in Hk. discriminate Hk.
Qed.

Lemma extract_var_of_literal_hash_witness :
  let y := mkVar 1 false None in
  literal_hash (NameExpr "y" (Some (VarNode y)))
  = Ok (Some [tag "Var"; KNode (VarNode y)])
  /\ extract_var_from_literal_hash [tag "Var"; KNode (VarNode y)] = Some y.
Proof.
  split; [reflexivity |].
  exact (@extract_var_of_literal_hash
           (NameExpr "y" (Some (VarNode (mkVar 1 false None))))
           [tag "Var"; KNode (VarNode (mkVar 1 false None))] eq_refl).
Defined.

(** ** Absent sub-expressions *)

(** C2, counterexample: a call hashes to [None], but the member access
    on it hashes to the present Key ("Member", None, "m"). *)
Lemma absent_child_does_not_make_hash_absent :
  ~ (forall e xs x,
       embedded e = Some xs -> In x xs ->
       literal_hash x = Ok None -> literal_hash e = Ok None).
Proof.
  intros H.
  specialize (H (MemberExpr (Unhashed CallExpr) "m") [Unhashed CallExpr]
                (Unhashed CallExpr) eq_refl (or_introl eq_refl) eq_refl).
  discriminate H.
Qed.

Lemma Forall2_nth_error {A B : Type} (R : A -> B -> Prop) (l : list A)
    (r : list B) (n : nat) (x : A) :
  Forall2 R l r -> nth_error l n = Some x ->
  exists y, nth_error r n = Some y /\ R x y.
Proof.
  intros H. revert n. induction H as [| a b l' r' Hab _ IH];
    intros [| n]; simpl; intros E; try discriminate E.
  - injection E as <-. exists b. auto.
  - apply IH. exact E.
Qed.

(** In the Key of a compound expression the hash of each embedded
    sub-expression stands at the position of that sub-expression. *)
Lemma compound_key_position (e : Expression) (xs : list Expression)
    (hs : list (option Key)) (m : nat) (h : option Key) :
  embedded e = Some xs ->
  nth_error hs m = Some h ->
  nth_error (compound_key e hs) (embedded_position e m) = Some (opt_item h).
Proof.
  intros He Hm.
  assert (Hmap : nth_error (map opt_item hs) m = Some (opt_item h)).
  { apply map_nth_error. exact Hm. }
  destruct e; simpl in He; try discriminate He; simpl.
  - (* StarExpr *)
    exact Hmap.
  - (* MemberExpr *)
    rewrite nth_error_app1; [exact Hmap |].
    apply nth_error_Some. rewrite Hmap. discriminate.
  - (* OpExpr *)
    exact Hmap.
  - (* ComparisonExpr *)
    rewrite nth_error_app2; rewrite length_map; [| lia].
    replace (List.length operators + m - List.length operators)%nat
      with m by lia.
    exact Hmap.
  - (* UnaryExpr *)
    exact Hmap.
Qed.

Lemma literal_hash_compound (e : Expression) (xs : list Expression)
    (hs : list (option Key)) :
  embedded e = Some xs ->
  mapM literal_hash xs = Ok hs ->
  literal_hash e = Ok (Some (compound_key e hs)).
Proof.
  intros He Hhs.
  destruct e; simpl in He; try discriminate He; injection He as <-.
  - (* StarExpr *)
    simpl in Hhs. simpl. unfold visit_star_expr.
    destruct (literal_hash e) as [h |]; [| discriminate Hhs].
    injection Hhs as <-. reflexivity.
  - (* MemberExpr *)
    simpl in Hhs. simpl. unfold visit_member_expr.
    destruct (literal_hash e) as [h |]; [| discriminate Hhs].
    injection Hhs as <-. reflexivity.
  - (* OpExpr *)
    simpl in Hhs. simpl. unfold visit_op_expr.
    destruct (literal_hash e1) as [h1 |]; [| discriminate Hhs].
    destruct (literal_hash e2) as [h2 |]; [| discriminate Hhs].
    injection Hhs as <-. reflexivity.
  - (* ComparisonExpr *)
    rewrite literal_hash_comparison, Hhs. reflexivity.
  - (* UnaryExpr *)
    simpl in Hhs. simpl. unfold visit_unary_expr.
    destruct (literal_hash e) as [h |]; [| discriminate Hhs].
    injection Hhs as <-. reflexivity.
Qed.

Lemma literal_embedded (e : Expression) (xs : list Expression) :
  embedded e = Some xs ->
  literal e = (cs <- mapM literal xs ;; py_min cs).
Proof.
  intros He.
  destruct e; simpl in He; try discriminate He; injection He as <-;
    try (simpl; destruct (literal e) as [c |]; reflexivity).
  - (* OpExpr *)
    apply literal_operands. reflexivity.
  - (* ComparisonExpr *)
    apply literal_comparison.
Qed.

(** C2, amended: for a star, member, unary, binary or comparison
    expression whose sub-expressions all have a hash and a
    classification, if the [n]-th sub-expression hashes to [None] then
    [literal_hash] of the whole expression is still a present Key: the
    Key the visitor builds from the hashes of the sub-expressions in
    order, each at the position of its sub-expression, which holds
    [None] at the position of the [n]-th; and it is [literal] of the
    whole expression that returns No. *)
Theorem absent_child_is_embedded (e : Expression) (xs : list Expression)
    (n : nat) (x : Expression) :
  embedded e = Some xs ->
  Forall (fun y => returns (literal y) /\ returns (literal_hash y)) xs ->
  nth_error xs n = Some x ->
  literal_hash x = Ok None ->
  (exists hs,
     Forall2 (fun y h => literal_hash y = Ok h) xs hs
     /\ literal_hash e = Ok (Some (compound_key e hs))
     /\ (forall m h, nth_error hs m = Some h ->
           nth_error (compound_key e hs) (embedded_position e m)
           = Some (opt_item h))
     /\ nth_error (compound_key e hs) (embedded_position e n) = Some KNone)
  /\ literal e = Ok LITERAL_NO.
Proof.
  intros He Hret Hn Hx.
  assert (Hcs : exists cs, mapM literal xs = Ok cs).
  { apply mapM_returns. eapply Forall_impl; [| exact Hret]. intros y [Hy _].
    exact Hy. }
  assert (Hhs : exists hs, mapM literal_hash xs = Ok hs).
  { apply mapM_returns. eapply Forall_impl; [| exact Hret]. intros y [_ Hy].
    exact Hy. }
  destruct Hcs as (cs & Hcs). destruct Hhs as (hs & Hhs).
  pose proof (proj1 (mapM_Ok _ _ _) Hhs) as Hall.
  destruct (Forall2_nth_error _ Hall Hn) as (h & Hh & Hh').
  rewrite Hx in Hh'. injection Hh' as <-.
  split.
  - exists hs. split; [exact Hall |].
    split; [apply (@literal_hash_compound e xs hs He Hhs) |].
    split; [intros m h; apply (@compound_key_position e xs hs m h He) |].
    apply (@compound_key_position e xs hs n None He Hh).
  - pose proof (nth_error_In _ _ Hn) as Hin.
    destruct (mapM_In _ _ _ Hcs Hin) as (c & Hc & Hc').
    rewrite (literal_hash_absent_No _ Hx) in Hc. injection Hc as <-.
    rewrite (@literal_embedded e xs He), Hcs. simpl.
    apply py_min_minimum. split; [intros ->; contradiction |].
    split; [exact Hc' |].
    pose proof (mapM_literal_classified _ Hcs) as Hcl.
    eapply Forall_impl; [| exact Hcl].
    intros c Hc. apply classification_bounds in Hc.
    unfold LITERAL_NO. lia.
Qed.

Lemma absent_child_is_embedded_witness :
  let e := OpExpr "+" (IntExpr 1) (Unhashed CallExpr) in
  let k := [tag "Binary"; KVal (VStr "+");
            KTuple [tag "Literal"; KVal (VInt 1)]; KNone] in
  embedded e = Some [IntExpr 1; Unhashed CallExpr]
  /\ literal_hash (Unhashed CallExpr) = Ok None
  /\ literal_hash e = Ok (Some k)
  /\ nth_error k 3 = Some KNone
  /\ literal e = Ok LITERAL_NO.
Proof.
  intros e k.
  split; [reflexivity |]. split; [reflexivity |].
  destruct (@absent_child_is_embedded e [IntExpr 1; Unhashed CallExpr]
              1%nat (Unhashed CallExpr) eq_refl) as ((hs & Hall & Hk & _) & Hl).
  - repeat constructor; eexists; reflexivity.
  - reflexivity.
  - reflexivity.
  - split; [reflexivity |]. split; [reflexivity |]. exact Hl.
Defined.

(** ** The sub-expressions of a literal are literals *)

Lemma is_literal_yes (e : Expression) :
  literal e = Ok LITERAL_YES -> is_literal e.
Proof. intros H. exists LITERAL_YES. split; [exact H | discriminate]. Qed.

Lemma is_literal_star (x : Expression) :
  is_literal (StarExpr x) -> is_literal x.
Proof. intros H. exact H. Qed.

Lemma is_literal_member (x : Expression) (name : string) :
  is_literal (MemberExpr x name) -> is_literal x.
Proof. intros H. exact H. Qed.

Lemma is_literal_unary (op : string) (x : Expression) :
  is_literal (UnaryExpr op x) -> is_literal x.
Proof. intros H. exact H. Qed.

Lemma is_literal_assignment (t v : Expression) :
  is_literal (AssignmentExpr t v) -> is_literal t.
Proof. intros H. exact H. Qed.

Lemma is_literal_operands (e : Expression) (operands : list Expression) :
  operands_of e = Some operands ->
  is_literal e -> Forall is_literal operands.
Proof.
  intros Hops (c & Hc & Hne). rewrite (literal_operands _ Hops) in Hc.
  bind_inv. pose proof (mapM_literal_classified _ E) as Hcl.
  pose proof (minimum_not_No Hcl Hc Hne) as Hall.
  apply mapM_Ok in E. clear - E Hall.
  induction E as [| x cx xs cs Hx _ IH]; constructor.
  - exists cx. inversion Hall; subst. auto.
  - apply IH. inversion Hall; assumption.
Qed.

Lemma is_literal_op (op : string) (l r : Expression) :
  is_literal (OpExpr op l r) -> is_literal l /\ is_literal r.
Proof.
  intros H.
  pose proof (@is_literal_operands (OpExpr op l r) [l; r] eq_refl H) as Hall.
  inversion Hall as [| ? ? Hl Hr']; subst.
  inversion Hr' as [| ? ? Hr _]; subst. auto.
Qed.

Lemma is_literal_comparison (ops : list string) (operands : list Expression) :
  is_literal (ComparisonExpr ops operands) -> Forall is_literal operands.
Proof. apply is_literal_operands. reflexivity. Qed.

Lemma is_literal_index (base index : Expression) :
  is_literal (IndexExpr base index) ->
  is_literal base /\ literal index = Ok LITERAL_YES.
Proof.
  intros (c & Hc & Hne). simpl in Hc. bind_inv; [| congruence].
  apply Z.eqb_eq in E0. subst. split; [exists c; auto | assumption].
Qed.

Lemma is_literal_display (d : display) (items : list Expression) :
  is_literal (display_expr d items) ->
  Forall (fun x => literal x = Ok LITERAL_YES) items.
Proof.
  intros (c & Hc & Hne).
  assert (H : exists h, seq_expr literal literal_hash items (display_name d)
                        = Ok h /\ truthy h = true).
  { destruct d; simpl in Hc; bind_inv; try congruence; eauto. }
  destruct H as (h & Hh & Ht). unfold seq_expr in Hh.
  apply bind_Ok in Hh. destruct Hh as ([|] & Hall & Hh).
  - apply allM_true in Hall. eapply Forall_impl; [| exact Hall].
    intros x Hx. simpl in Hx. bind_inv. apply Z.eqb_eq in Hx. subst.
    assumption.
  - injection Hh as <-. discriminate Ht.
Qed.

Lemma is_literal_dict (items : list (option Expression * Expression)) :
  is_literal (DictExpr items) -> Forall entry_yes items.
Proof.
  intros (c & Hc & Hne). simpl in Hc. bind_inv; [| congruence].
  unfold visit_dict_expr in E. apply bind_Ok in E.
  destruct E as ([|] & Hall & Hh).
  - apply allM_true in Hall. eapply Forall_impl; [| exact Hall].
    intros ab. apply entry_test_true.
  - injection Hh as <-. discriminate E0.
Qed.

Lemma not_literal_unhashed (cls : unhashed) : ~ is_literal (Unhashed cls).
Proof.
  intros (c & Hc & Hne). simpl in Hc. rewrite visit_unhashed_None in Hc.
  simpl in Hc. injection Hc as <-. contradiction.
Qed.

(** ** The hash of a literal *)

Lemma mapM_hash_key_of (l : list Expression) :
  Forall (fun e => is_literal e -> literal_hash e = Ok (Some (key_of e))) l ->
  Forall is_literal l ->
  mapM literal_hash l = Ok (map (fun o => Some (key_of o)) l).
Proof.
  induction 1 as [| x xs Hx _ IH]; intros Hl; [reflexivity |].
  inversion Hl as [| ? ? Lx Lxs]; subst. simpl.
  rewrite (Hx Lx). simpl. specialize (IH Lxs). simpl in IH. rewrite IH.
  reflexivity.
Qed.

Lemma seq_expr_key_of (items : list Expression) (name : string) :
  Forall (fun e => is_literal e -> literal_hash e = Ok (Some (key_of e)))
    items ->
  Forall (fun x => literal x = Ok LITERAL_YES) items ->
  seq_expr literal literal_hash items name
  = Ok (Some (tag name :: map (fun x => KTuple (key_of x)) items)).
Proof.
  intros IH Hyes. unfold seq_expr.
  assert (Hall : allM (fun x => c <- literal x ;; Ok (c =? LITERAL_YES)) items
                 = Ok true).
  { apply allM_true. eapply Forall_impl; [| exact Hyes].
    intros x ->. reflexivity. }
  rewrite Hall. simpl.
  rewrite (mapM_hash_key_of IH).
  - simpl. rewrite map_map. reflexivity.
  - eapply Forall_impl; [| exact Hyes]. apply is_literal_yes.
Qed.

Lemma literal_hash_key_of (e : Expression) :
  is_literal e -> literal_hash e = Ok (Some (key_of e)).
Proof.
  induction e using Expression_nested_ind; intros Hl;
    try reflexivity.
  - (* StarExpr *)
    simpl. unfold visit_star_expr. rewrite (IHe Hl). reflexivity.
  - (* NameExpr *)
    simpl. unfold visit_name_expr. destruct (final_constant _); reflexivity.
  - (* MemberExpr *)
    simpl. unfold visit_member_expr. rewrite (IHe Hl). reflexivity.
  - (* OpExpr *)
    destruct (is_literal_op Hl) as (L1 & L2).
    simpl. unfold visit_op_expr. rewrite (IHe1 L1), (IHe2 L2). reflexivity.
  - (* ComparisonExpr *)
    rewrite literal_hash_comparison.
    rewrite (mapM_hash_key_of H (is_literal_comparison Hl)).
    simpl. rewrite map_map. reflexivity.
  - (* UnaryExpr *)
    simpl. unfold visit_unary_expr. rewrite (IHe Hl). reflexivity.
  - (* ListExpr *)
    apply (seq_expr_key_of _ H). apply (@is_literal_display ListDisplay).
    exact Hl.
  - (* DictExpr *)
    pose proof (is_literal_dict Hl) as Hyes.
    simpl. unfold visit_dict_expr.
    assert (Hall : allM (fun ab =>
                match fst ab with
                | None => Ok false
                | Some a =>
                    ca <- literal a ;;
                    cb <- literal (snd ab) ;;
                    Ok ((ca =? cb) && (cb =? LITERAL_YES))%bool
                end) items = Ok true).
    { apply allM_true. eapply Forall_impl; [| exact Hyes].
      intros ab. apply entry_test_true. }
    rewrite Hall. simpl.
    assert (Hm : mapM (fun ab =>
               ha <- match fst ab with
                     | Some a => literal_hash a
                     | None => Ok None
                     end ;;
               hb <- literal_hash (snd ab) ;;
               Ok (KTuple [opt_item ha; opt_item hb])) items
             = Ok (map (fun ab =>
                KTuple [match fst ab with
                        | Some a => KTuple (key_of a)
                        | None => KNone
                        end;
                        KTuple (key_of (snd ab))]) items)).
    { clear Hall Hl. induction H as [| ab xs (Ha & Hb) _ IH]; [reflexivity |].
      inversion Hyes as [| ? ? (a & Ea & La & Lb) Hyes']; subst.
      simpl. rewrite Ea.
      rewrite (Ha a Ea (is_literal_yes _ La)), (Hb (is_literal_yes _ Lb)).
      simpl. specialize (IH Hyes'). simpl in IH. rewrite IH. reflexivity. }
    rewrite Hm. reflexivity.
  - (* TupleExpr *)
    apply (seq_expr_key_of _ H). apply (@is_literal_display TupleDisplay).
    exact Hl.
  - (* SetExpr *)
    apply (seq_expr_key_of _ H). apply (@is_literal_display SetDisplay).
    exact Hl.
  - (* IndexExpr *)
    destruct (is_literal_index Hl) as (Lb & Li).
    simpl. unfold visit_index_expr. rewrite Li. simpl.
    rewrite (IHe1 Lb), (IHe2 (is_literal_yes _ Li)). reflexivity.
  - (* AssignmentExpr *)
    simpl. apply IHe1. exact Hl.
  - (* Unhashed *)
    destruct (not_literal_unhashed Hl).
Qed.

(** ** Inlining the targets of assignments *)

Lemma mapM_map_ext {A B : Type} (f : A -> result B) (g : A -> A)
    (l : list A) :
  Forall (fun x => f (g x) = f x) l -> mapM f (map g l) = mapM f l.
Proof.
  induction 1 as [| x xs Hx _ IH]; [reflexivity |].
  simpl. rewrite Hx. simpl in IH. rewrite IH. reflexivity.
Qed.

Lemma allM_map_ext {A : Type} (p : A -> result bool) (g : A -> A)
    (l : list A) :
  Forall (fun x => p (g x) = p x) l -> allM p (map g l) = allM p l.
Proof.
  induction 1 as [| x xs Hx _ IH]; [reflexivity |].
  simpl. rewrite Hx. simpl in IH. rewrite IH. reflexivity.
Qed.

Lemma seq_expr_inline (items : list Expression) (name : string) :
  Forall (fun e => literal (inline_targets e) = literal e
                   /\ literal_hash (inline_targets e) = literal_hash e)
    items ->
  seq_expr literal literal_hash (map inline_targets items) name
  = seq_expr literal literal_hash items name.
Proof.
  intros H. unfold seq_expr.
  rewrite allM_map_ext, mapM_map_ext; [reflexivity | |].
  - eapply Forall_impl; [| exact H]. intros e (_ & He). exact He.
  - eapply Forall_impl; [| exact H]. intros e (He & _). simpl.
    rewrite He. reflexivity.
Qed.

Lemma inline_targets_preserves (e : Expression) :
  literal (inline_targets e) = literal e
  /\ literal_hash (inline_targets e) = literal_hash e.
Proof.
  induction e using Expression_nested_ind;
    try (split; reflexivity).
  - (* StarExpr *)
    destruct IHe as (Hl & Hh). split; [exact Hl |].
    simpl. unfold visit_star_expr. simpl in Hh. rewrite Hh. reflexivity.
  - (* MemberExpr *)
    destruct IHe as (Hl & Hh). split; [exact Hl |].
    simpl. unfold visit_member_expr. rewrite Hh. reflexivity.
  - (* OpExpr *)
    destruct IHe1 as (Hl1 & Hh1), IHe2 as (Hl2 & Hh2). split; simpl.
    + rewrite Hl1, Hl2. reflexivity.
    + unfold visit_op_expr. rewrite Hh1, Hh2. reflexivity.
  - (* ComparisonExpr *)
    split.
    + simpl inline_targets. rewrite !literal_comparison.
      rewrite mapM_map_ext; [reflexivity |].
      eapply Forall_impl; [| exact H]. intros e (He & _). exact He.
    + simpl inline_targets. rewrite !literal_hash_comparison.
      rewrite mapM_map_ext; [reflexivity |].
      eapply Forall_impl; [| exact H]. intros e (_ & He). exact He.
  - (* UnaryExpr *)
    destruct IHe as (Hl & Hh). split; [exact Hl |].
    simpl. unfold visit_unary_expr. rewrite Hh. reflexivity.
  - (* ListExpr *)
    pose proof (seq_expr_inline "List" H) as Hs.
    split; simpl; unfold visit_list_expr; rewrite Hs; reflexivity.
  - (* DictExpr *)
    assert (Hs : visit_dict_expr literal literal_hash
                   (map (fun ab => (option_map inline_targets (fst ab),
                                    inline_targets (snd ab))) items)
                 = visit_dict_expr literal literal_hash items).
    { unfold visit_dict_expr.
      rewrite allM_map_ext, mapM_map_ext; [reflexivity | |].
      - eapply Forall_impl; [| exact H].
        intros (oa, b) (Ha & (_ & Hb)). simpl in *. rewrite Hb.
        destruct oa as [a |]; [| reflexivity].
        simpl. destruct (Ha a eq_refl) as (_ & Hha). rewrite Hha.
        reflexivity.
      - eapply Forall_impl; [| exact H].
        intros (oa, b) (Ha & (Hb & _)). simpl in *.
        destruct oa as [a |]; [| reflexivity].
        simpl. destruct (Ha a eq_refl) as (Hla & _). rewrite Hla, Hb.
        reflexivity. }
    split; simpl; rewrite Hs; reflexivity.
  - (* TupleExpr *)
    pose proof (seq_expr_inline "Tuple" H) as Hs.
    split; simpl; unfold visit_tuple_expr; rewrite Hs; reflexivity.
  - (* SetExpr *)
    pose proof (seq_expr_inline "Set" H) as Hs.
    split; simpl; unfold visit_set_expr; rewrite Hs; reflexivity.
  - (* IndexExpr *)
    destruct IHe1 as (Hl1 & Hh1), IHe2 as (Hl2 & Hh2). split; simpl.
    + rewrite Hl1, Hl2. reflexivity.
    + unfold visit_index_expr. rewrite Hl2, Hh1, Hh2. reflexivity.
  - (* AssignmentExpr *)
    exact IHe1.
Qed.

(** ** Equality of Keys is reflexive *)

Lemma forall2b_refl {A : Type} (f : A -> A -> bool) (l : list A) :
  Forall (fun x => f x x = true) l -> forall2b f l l = true.
Proof.
  induction 1 as [| x xs Hx _ IH]; [reflexivity |].
  simpl. rewrite Hx. exact IH.
Qed.

Lemma forall2b_eq {A : Type} (f : A -> A -> bool) (l r : list A) :
  Forall (fun x => forall y, f x y = true -> x = y) l ->
  forall2b f l r = true -> l = r.
Proof.
  intros H. revert r. induction H as [| x xs Hx _ IH]; intros [| y ys];
    simpl; intros E; try discriminate E; [reflexivity |].
  apply andb_true_iff in E. destruct E as (E1 & E2).
  rewrite (Hx y E1), (IH ys E2). reflexivity.
Qed.

Lemma bytes_eqb_refl (b : list Byte.byte) : forall2b Byte.eqb b b = true.
Proof.
  apply forall2b_refl. apply Forall_forall. intros x _.
  apply Byte.byte_dec_lb. reflexivity.
Qed.

Lemma bytes_eqb_eq (b c : list Byte.byte) :
  forall2b Byte.eqb b c = true -> b = c.
Proof.
  apply forall2b_eq. apply Forall_forall. intros x _ y.
  apply Byte.byte_dec_bl.
Qed.

Lemma float_same_refl (f : spec_float) : float_same f f = true.
Proof.
  destruct f as [s | s | | s m e]; simpl; rewrite ?eqb_reflx,
    ?Pos.eqb_refl, ?Z.eqb_refl; reflexivity.
Qed.

Lemma float_same_eq (f g : spec_float) : float_same f g = true -> f = g.
Proof.
  destruct f as [s | s | | s m e], g as [t | t | | t n k]; simpl;
    intros E; try discriminate E; try reflexivity.
  - apply eqb_prop in E. subst. reflexivity.
  - apply eqb_prop in E. subst. reflexivity.
  - apply andb_true_iff in E. destruct E as (E & Ee).
    apply andb_true_iff in E. destruct E as (Es & Em).
    apply eqb_prop in Es. apply Pos.eqb_eq in Em. apply Z.eqb_eq in Ee.
    subst. reflexivity.
Qed.

Lemma value_same_refl (v : value) : value_same v v = true.
Proof.
  destruct v; simpl.
  - apply Z.eqb_refl.
  - apply float_same_refl.
  - rewrite !float_same_refl. reflexivity.
  - apply String.eqb_refl.
  - apply bytes_eqb_refl.
Qed.

Lemma value_same_eq (v w : value) : value_same v w = true -> v = w.
Proof.
  destruct v, w; simpl; intros E; try discriminate E.
  - apply Z.eqb_eq in E. subst. reflexivity.
  - apply float_same_eq in E. subst. reflexivity.
  - apply andb_true_iff in E. destruct E as (E1 & E2).
    apply float_same_eq in E1, E2. subst. reflexivity.
  - apply String.eqb_eq in E. subst. reflexivity.
  - apply bytes_eqb_eq in E. subst. reflexivity.
Qed.

(** An element of a tuple is equal to itself, also a NaN. *)
Lemma value_eqb_refl (v : value) : value_eqb v v = true.
Proof. unfold value_eqb. rewrite value_same_refl. reflexivity. Qed.

Lemma value_eqb_str (s t : string) :
  value_eqb (VStr s) (VStr t) = String.eqb s t.
Proof. unfold value_eqb. simpl. apply orb_diag. Qed.


Lemma node_is_refl (n : SymbolNode) : node_is n n = true.
Proof. apply Pos.eqb_refl. Qed.

Lemma item_eqb_refl (i : item) : item_eqb i i = true.
Proof.
  induction i using item_nested_ind; simpl.
  - apply value_eqb_refl.
  - apply node_is_refl.
  - reflexivity.
  - apply forall2b_refl. assumption.
Qed.

Lemma key_eqb_refl (k : Key) : key_eqb k k = true.
Proof.
  apply forall2b_refl. apply Forall_forall. intros i _. apply item_eqb_refl.
Qed.


(** ** Identical expressions *)

Lemma option_same_eq {A : Type} (same : A -> A -> bool) (a b : option A) :
  (forall x y, same x y = true -> x = y) ->
  option_same same a b = true -> a = b.
Proof.
  intros H. destruct a, b; simpl; intros E; try discriminate E;
    [| reflexivity].
  rewrite (H _ _ E). reflexivity.
Qed.

Lemma node_same_eq (n m : SymbolNode) : node_same n m = true -> n = m.
Proof.
  destruct n as [[i f v] | i], m as [[j g w] | j]; simpl; intros E;
    try discriminate E.
  - apply andb_true_iff in E. destruct E as (E & Ev).
    apply andb_true_iff in E. destruct E as (Ei & Ef).
    apply Pos.eqb_eq in Ei. apply eqb_prop in Ef.
    apply (option_same_eq _ _ _ value_same_eq) in Ev. subst. reflexivity.
  - apply Pos.eqb_eq in E. subst. reflexivity.
Qed.

Lemma node_same_refl (n : SymbolNode) : node_same n n = true.
Proof.
  destruct n as [[i f v] | i]; simpl.
  - rewrite Pos.eqb_refl, eqb_reflx. simpl.
    destruct v; simpl; [apply value_same_refl | reflexivity].
  - apply Pos.eqb_refl.
Qed.

Lemma same_node_refl (n : option SymbolNode) : same_node n n = true.
Proof. destruct n; simpl; [apply node_is_refl | reflexivity]. Qed.

Lemma unhashed_eqb_refl (c : unhashed) : unhashed_eqb c c = true.
Proof. destruct c; reflexivity. Qed.


Lemma forall2b_imp_map {A : Type} (f f' : A -> A -> bool) (g : A -> A)
    (l r : list A) :
  Forall (fun x => forall y, f x y = true -> f' (g x) (g y) = true) l ->
  forall2b f l r = true ->
  forall2b f' (map g l) (map g r) = true.
Proof.
  intros H. revert r. induction H as [| x xs Hx _ IH]; intros [| y ys];
    simpl; intros E; try discriminate E; [reflexivity |].
  apply andb_true_iff in E. destruct E as (E1 & E2).
  rewrite (Hx y E1). exact (IH ys E2).
Qed.

Lemma alike_name (x1 x2 : string) (n : option SymbolNode) :
  alike (NameExpr x1 n) (NameExpr x2 n) = true.
Proof.
  simpl. destruct (final_constant n);
    [apply value_eqb_refl | apply same_node_refl].
Qed.

Ltac split_andb E E1 E2 :=
  apply andb_true_iff in E; destruct E as (E1 & E2).

(** Identical expressions are equivalent: the identifications only make
    the relation coarser. *)
Lemma identical_equivalent (e1 e2 : Expression) :
  identical e1 e2 = true -> equivalent e1 e2 = true.
Proof.
  unfold equivalent. revert e2.
  induction e1 using Expression_nested_ind; intros e2 E; destruct e2;
    simpl in E; try discriminate E;
    try exact E; try (simpl; rewrite value_eqb_str; exact E).
  - (* StarExpr *)
    simpl. apply IHe1. exact E.
  - (* NameExpr *)
    split_andb E Ex En.
    apply (option_same_eq _ _ _ node_same_eq) in En. subst.
    apply alike_name.
  - (* MemberExpr *)
    split_andb E Ex Em. simpl. rewrite (IHe1 _ Ex). exact Em.
  - (* OpExpr *)
    split_andb E E Er. split_andb E Eo El. simpl.
    rewrite Eo, (IHe1_1 _ El), (IHe1_2 _ Er). reflexivity.
  - (* ComparisonExpr *)
    split_andb E Eo Eos. simpl. rewrite Eo. simpl.
    apply (@forall2b_imp_map _ identical alike inline_targets _ _ H Eos).
  - (* UnaryExpr *)
    split_andb E Eo Ex. simpl. rewrite Eo. apply IHe1. exact Ex.
  - (* ListExpr *)
    simpl. apply (@forall2b_imp_map _ identical alike inline_targets _ _ H E).
  - (* DictExpr *)
    simpl. revert E. apply forall2b_imp_map.
    eapply Forall_impl; [| exact H].
    intros (oa1, b1) (Ha & Hb) (oa2, b2). simpl in *. intros E.
    split_andb E Ea Eb. rewrite (Hb _ Eb), andb_true_r.
    destruct oa1 as [a1 |], oa2 as [a2 |]; simpl in *;
      try discriminate Ea; [| reflexivity].
    apply (Ha a1 eq_refl). exact Ea.
  - (* TupleExpr *)
    simpl. apply (@forall2b_imp_map _ identical alike inline_targets _ _ H E).
  - (* SetExpr *)
    simpl. apply (@forall2b_imp_map _ identical alike inline_targets _ _ H E).
  - (* IndexExpr *)
    split_andb E Eb Ei. simpl. rewrite (IHe1_1 _ Eb). apply IHe1_2. exact Ei.
  - (* AssignmentExpr *)
    split_andb E Et Ev. simpl. apply IHe1_1. exact Et.
Qed.

Lemma identical_refl (e : Expression) : identical e e = true.
Proof.
  induction e using Expression_nested_ind; simpl;
    rewrite ?String.eqb_refl, ?value_eqb_refl; simpl;
    try reflexivity; try assumption;
    try (apply forall2b_refl; assumption).
  - (* NameExpr *)
    destruct node as [n |]; simpl; [apply node_same_refl | reflexivity].
  - (* MemberExpr *)
    rewrite IHe. reflexivity.
  - (* OpExpr *)
    rewrite IHe1, IHe2. reflexivity.
  - (* ComparisonExpr *)
    rewrite forall2b_refl.
    + apply forall2b_refl. assumption.
    + apply Forall_forall. intros s _. apply String.eqb_refl.
  - (* DictExpr *)
    apply forall2b_refl. eapply Forall_impl; [| exact H].
    intros (oa, b) (Ha & Hb). simpl in *. rewrite Hb, andb_true_r.
    destruct oa as [a |]; simpl; [apply (Ha a eq_refl) | reflexivity].
  - (* IndexExpr *)
    rewrite IHe1, IHe2. reflexivity.
  - (* AssignmentExpr *)
    rewrite IHe1, IHe2. reflexivity.
  - (* Unhashed *)
    apply unhashed_eqb_refl.
Qed.

Lemma equivalent_refl (e : Expression) : equivalent e e = true.
Proof. apply identical_equivalent. apply identical_refl. Qed.
(** ** Equivalent expressions have the same classification and hash *)






















(** ** Equal Keys of literals *)









(** ** Equal Keys and syntactic identity *)

Example nan_key_equals_itself :
  key_eqb [tag "Literal"; KVal (VFloat S754_nan)]
          [tag "Literal"; KVal (VFloat S754_nan)] = true
  /\ value_equal (VFloat S754_nan) (VFloat S754_nan) = false.
Proof. split; reflexivity. Qed.




(** * Further properties of the module *)

(** ** Results of [literal] and [literal_hash] *)

(** X1: whenever [literal] returns, the result is one of LITERAL_NO,
    LITERAL_TYPE and LITERAL_YES. *)
Theorem literal_result_is_a_classification (e : Expression) (c : Z) :
  literal e = Ok c ->
  c = LITERAL_NO \/ c = LITERAL_TYPE \/ c = LITERAL_YES.
Proof. intros H. exact (literal_range _ H). Qed.

Lemma literal_result_is_a_classification_witness :
  let e := OpExpr "+" (NameExpr "x" None) (IntExpr 1) in
  literal e = Ok 1
  /\ (1 = LITERAL_NO \/ 1 = LITERAL_TYPE \/ 1 = LITERAL_YES).
Proof.
  split; [reflexivity |].
  exact (@literal_result_is_a_classification
           (OpExpr "+" (NameExpr "x" None) (IntExpr 1)) 1 eq_refl).
Defined.

(** X2: whenever [literal_hash] returns [None], [literal] returns
    LITERAL_NO on the same expression; it neither raises nor gives another
    classification. *)
Theorem expression_without_hash_is_not_a_literal (e : Expression) :
  literal_hash e = Ok None -> literal e = Ok LITERAL_NO.
Proof. apply literal_hash_absent_No. Qed.

Lemma expression_without_hash_is_not_a_literal_witness :
  let e := AssignmentExpr
             (IndexExpr (NameExpr "x" None) (NameExpr "i" None))
             (IntExpr 0) in
  literal_hash e = Ok None /\ literal e = Ok LITERAL_NO.
Proof.
  split; [reflexivity |].
  exact (@expression_without_hash_is_not_a_literal
           (AssignmentExpr
              (IndexExpr (NameExpr "x" None) (NameExpr "i" None))
              (IntExpr 0)) eq_refl).
Defined.

Lemma mapM_returns_of (f : Expression -> result Z)
    (h : Expression -> result (option Key)) (l : list Expression)
    (cs : list Z) :
  Forall (fun e => forall c, f e = Ok c -> returns (h e)) l ->
  mapM f l = Ok cs -> returns (mapM h l).
Proof.
  intros IH H. apply mapM_returns. apply mapM_Ok in H.
  induction H as [| x c xs cs' Hx _ IHl]; constructor.
  - inversion IH as [| ? ? Hhx _]; subst. exact (Hhx c Hx).
  - apply IHl. inversion IH; assumption.
Qed.

Lemma literal_returns_hash_returns (e : Expression) (c : Z) :
  literal e = Ok c -> returns (literal_hash e).
Proof.
  revert c.
  induction e using Expression_nested_ind; intros c Hc;
    try (eexists; reflexivity);
    try (simpl in Hc |- *; apply bind_Ok in Hc;
         destruct Hc as (h & Hh & _); exists h; exact Hh).
  - (* StarExpr *)
    destruct (IHe _ Hc) as (h & Hh). simpl. unfold visit_star_expr.
    rewrite Hh. eexists. reflexivity.
  - (* NameExpr *)
    simpl. unfold visit_name_expr. destruct (final_constant _);
      eexists; reflexivity.
  - (* MemberExpr *)
    destruct (IHe _ Hc) as (h & Hh). simpl. unfold visit_member_expr.
    rewrite Hh. eexists. reflexivity.
  - (* OpExpr *)
    simpl in Hc. apply bind_Ok in Hc. destruct Hc as (c1 & L1 & Hc).
    apply bind_Ok in Hc. destruct Hc as (c2 & L2 & _).
    destruct (IHe1 _ L1) as (h1 & H1). destruct (IHe2 _ L2) as (h2 & H2).
    simpl. unfold visit_op_expr. rewrite H1, H2. eexists. reflexivity.
  - (* ComparisonExpr *)
    rewrite literal_comparison in Hc. apply bind_Ok in Hc.
    destruct Hc as (cs & Hcs & _).
    rewrite literal_hash_comparison. apply returns_bind.
    + exact (mapM_returns_of _ _ H Hcs).
    + intros. eexists. reflexivity.
  - (* UnaryExpr *)
    destruct (IHe _ Hc) as (h & Hh). simpl. unfold visit_unary_expr.
    rewrite Hh. eexists. reflexivity.
  - (* IndexExpr *)
    simpl in Hc. apply bind_Ok in Hc. destruct Hc as (ci & Li & Hc).
    simpl. unfold visit_index_expr. rewrite Li. simpl.
    destruct (ci =? LITERAL_YES); [| eexists; reflexivity].
    destruct (IHe1 _ Hc) as (hb & Hb). destruct (IHe2 _ Li) as (hi & Hi).
    rewrite Hb, Hi. eexists. reflexivity.
  - (* AssignmentExpr *)
    exact (IHe1 _ Hc).
Qed.

(** X3: whenever [literal] returns on an expression, so does
    [literal_hash]: hashing raises no exception that classifying does not
    raise; and when the classification is not LITERAL_NO the hash is a
    Key, not [None]. *)
Theorem classified_expression_has_hash_result (e : Expression) (c : Z) :
  literal e = Ok c ->
  exists h,
    literal_hash e = Ok h
    /\ (c <> LITERAL_NO -> exists k, h = Some k).
Proof.
  intros Hc. destruct (literal_returns_hash_returns _ Hc) as (h & Hh).
  exists h. split; [exact Hh |]. intros Hne.
  destruct (literal_has_hash _ Hc Hne) as (k & Hk).
  exists k. rewrite Hk in Hh. injection Hh as <-. reflexivity.
Qed.

Lemma classified_expression_has_hash_result_witness :
  let e := MemberExpr (NameExpr "x" None) "m" in
  literal e = Ok LITERAL_TYPE
  /\ exists h, literal_hash e = Ok h
               /\ (LITERAL_TYPE <> LITERAL_NO -> exists k, h = Some k).
Proof.
  split; [reflexivity |].
  exact (@classified_expression_has_hash_result
           (MemberExpr (NameExpr "x" None) "m") LITERAL_TYPE eq_refl).
Defined.

(** X4: a Key returned by [literal_hash] is never the empty tuple: it
    starts with one of the twelve tag strings.  So the test
    [if literal_hash(e)] in [literal] is false only for [None]. *)
Theorem key_starts_with_a_tag (e : Expression) (k : Key) :
  literal_hash e = Ok (Some k) ->
  (exists t rest, k = tag t :: rest /\ In t key_tags)
  /\ truthy (Some k) = true.
Proof.
  revert k.
  assert (Htag : forall t rest,
             In t key_tags ->
             (exists t' rest', tag t :: rest = tag t' :: rest'
                               /\ In t' key_tags)
             /\ truthy (Some (tag t :: rest)) = true).
  { intros t rest Hin. split; [exists t, rest; auto | reflexivity]. }
  induction e using Expression_nested_ind; intros k Hk; simpl in Hk;
    unfold visit_int_expr, visit_str_expr, visit_bytes_expr,
      visit_float_expr, visit_complex_expr, visit_star_expr,
      visit_member_expr, visit_op_expr, visit_comparison_expr,
      visit_unary_expr, visit_list_expr, visit_tuple_expr, visit_set_expr,
      seq_expr, visit_dict_expr, visit_index_expr, visit_assignment_expr
      in Hk;
    try (bind_inv; subst k; apply Htag; unfold key_tags; simpl; tauto).
  - (* NameExpr *)
    unfold visit_name_expr in Hk.
    destruct (final_constant _); injection Hk as <-;
      apply Htag; unfold key_tags; simpl; tauto.
  - (* AssignmentExpr *)
    exact (IHe1 _ Hk).
  - (* Unhashed *)
    rewrite visit_unhashed_None in Hk. discriminate Hk.
Qed.

Lemma key_starts_with_a_tag_witness :
  let e := ComparisonExpr [] [] in
  literal_hash e = Ok (Some [tag "Comparison"])
  /\ truthy (Some [tag "Comparison"]) = true.
Proof.
  split; [reflexivity |].
  exact (proj2 (@key_starts_with_a_tag (ComparisonExpr [] [])
                  [tag "Comparison"] eq_refl)).
Defined.

(** ** Displays *)

Lemma literal_display (d : display) (items : list Expression) :
  literal (display_expr d items)
  = (h <- seq_expr literal literal_hash items (display_name d) ;;
     if truthy h then Ok LITERAL_YES else Ok LITERAL_NO).
Proof. destruct d; reflexivity. Qed.

(** X5: a list, tuple or set display whose elements all have a
    classification is classified LITERAL_YES when every element is
    LITERAL_YES and LITERAL_NO otherwise, never LITERAL_TYPE: a display of
    plain variables is not a literal although each variable is. *)
Theorem display_is_constant_or_rejected (d : display)
    (items : list Expression) (cs : list Z) :
  mapM literal items = Ok cs ->
  (Forall (fun c => c = LITERAL_YES) cs ->
   literal (display_expr d items) = Ok LITERAL_YES)
  /\ (~ Forall (fun c => c = LITERAL_YES) cs ->
      literal (display_expr d items) = Ok LITERAL_NO).
Proof.
  intros Hcs. rewrite literal_display. unfold seq_expr.
  rewrite (allM_yes _ Hcs). split; intros Y.
  - destruct (all_yes_dec cs) as [_ | N]; [| contradiction].
    destruct (@mapM_hash_present items cs Hcs) as (ks & _ & Hm).
    { eapply Forall_impl; [| exact Y]. intros c ->. discriminate. }
    simpl. rewrite Hm. reflexivity.
  - destruct (all_yes_dec cs) as [Y' | _]; [contradiction | reflexivity].
Qed.

Lemma display_is_constant_or_rejected_witness :
  let x := NameExpr "x" (Some (VarNode (mkVar 1 false None))) in
  mapM literal [x; x] = Ok [1; 1]
  /\ literal (TupleExpr [x; x]) = Ok LITERAL_NO.
Proof.
  intros x. split; [reflexivity |].
  apply (@display_is_constant_or_rejected TupleDisplay [x; x] [1; 1] eq_refl).
  intros Y. inversion Y as [| ? ? Y1 _]. discriminate Y1.
Defined.

Lemma allM_stops {A : Type} (p : A -> result bool) (pre post : list A)
    (x : A) :
  Forall (fun y => p y = Ok true) pre ->
  p x = Ok false ->
  allM p (pre ++ x :: post) = Ok false.
Proof.
  intros Hpre Hx. induction Hpre as [| y ys Hy _ IH]; simpl.
  - rewrite Hx. reflexivity.
  - rewrite Hy. simpl. exact IH.
Qed.

(** X6: [seq_expr] stops at the first element that is not LITERAL_YES:
    when the elements before it are LITERAL_YES, the display hashes to
    [None] and is classified LITERAL_NO whatever follows, even elements
    on which [literal] would raise. *)
Theorem display_rejected_at_first_non_constant (d : display)
    (pre post : list Expression) (x : Expression) (c : Z) :
  Forall (fun y => literal y = Ok LITERAL_YES) pre ->
  literal x = Ok c ->
  c <> LITERAL_YES ->
  literal_hash (display_expr d (pre ++ x :: post)) = Ok None
  /\ literal (display_expr d (pre ++ x :: post)) = Ok LITERAL_NO.
Proof.
  intros Hpre Hx Hne.
  assert (Hall : allM (fun y => c' <- literal y ;; Ok (c' =? LITERAL_YES))
                   (pre ++ x :: post) = Ok false).
  { apply allM_stops.
    - eapply Forall_impl; [| exact Hpre]. intros y ->. reflexivity.
    - rewrite Hx. simpl. apply Z.eqb_neq in Hne. rewrite Hne. reflexivity. }
  split.
  - rewrite literal_hash_display. unfold seq_expr. rewrite Hall. reflexivity.
  - rewrite literal_display. unfold seq_expr. rewrite Hall. reflexivity.
Qed.

Lemma display_rejected_at_first_non_constant_witness :
  literal (ComparisonExpr [] []) = Raise ValueError
  /\ literal_hash
       (ListExpr [IntExpr 1; Unhashed CallExpr; ComparisonExpr [] []])
     = Ok None.
Proof.
  split; [reflexivity |].
  apply (@display_rejected_at_first_non_constant ListDisplay
           [IntExpr 1] [ComparisonExpr [] []] (Unhashed CallExpr) 0).
  - repeat constructor.
  - reflexivity.
  - discriminate.
Defined.

(** ** Sub-expressions of a literal *)

Lemma entries_yes_children (items : list (option Expression * Expression)) :
  Forall entry_yes items ->
  Forall (fun x => literal x = Ok LITERAL_YES)
    (flat_map (fun ab => match fst ab with
                         | Some a => [a; snd ab]
                         | None => [snd ab]
                         end) items).
Proof.
  induction 1 as [| ab xs (a & Ea & La & Lb) _ IH]; simpl.
  - constructor.
  - rewrite Ea. simpl. constructor; [exact La |].
    constructor; [exact Lb | exact IH].
Qed.

Lemma literal_children (e : Expression) :
  is_literal e -> Forall is_literal (hashed_children e).
Proof.
  intros L. destruct e; simpl;
    try (apply Forall_nil);
    try (apply Forall_cons; [exact L | apply Forall_nil]).
  - (* OpExpr *)
    destruct (is_literal_op L) as (Ll & Lr).
    apply Forall_cons; [exact Ll |].
    apply Forall_cons; [exact Lr | apply Forall_nil].
  - (* ComparisonExpr *) apply (is_literal_comparison L).
  - (* ListExpr *)
    eapply Forall_impl; [apply is_literal_yes |].
    apply (@is_literal_display ListDisplay). exact L.
  - (* DictExpr *)
    eapply Forall_impl; [apply is_literal_yes |].
    apply entries_yes_children. apply is_literal_dict. exact L.
  - (* TupleExpr *)
    eapply Forall_impl; [apply is_literal_yes |].
    apply (@is_literal_display TupleDisplay). exact L.
  - (* SetExpr *)
    eapply Forall_impl; [apply is_literal_yes |].
    apply (@is_literal_display SetDisplay). exact L.
  - (* IndexExpr *)
    destruct (is_literal_index L) as (Lb & Li).
    apply Forall_cons; [exact Lb |].
    apply Forall_cons; [apply is_literal_yes; exact Li | apply Forall_nil].
Qed.

(** X7: literals are closed under sub-expressions: every expression that
    lies inside a literal at a hashed position (any depth; of an inline
    assignment the target, not the value) is itself a literal, and so is
    not a call, a lambda or another expression without hashing rule. *)
Theorem literal_subexpressions_are_literals (e x : Expression) :
  is_literal e ->
  hashed_within x e ->
  is_literal x /\ forall cls, x <> Unhashed cls.
Proof.
  intros L Hin.
  assert (Lx : is_literal x).
  { induction Hin as [| y e Hy _ IH]; [exact L |].
    apply IH. pose proof (literal_children L) as Hall.
    rewrite Forall_forall in Hall. apply Hall. exact Hy. }
  split; [exact Lx |].
  intros cls ->. exact (not_literal_unhashed Lx).
Qed.

Lemma literal_subexpressions_are_literals_witness :
  let x := NameExpr "x" (Some (VarNode (mkVar 1 false None))) in
  let e := MemberExpr (IndexExpr x (TupleExpr [IntExpr 0; StrExpr "k"])) "m" in
  is_literal e /\ is_literal (StrExpr "k").
Proof.
  intros x e.
  assert (L : is_literal e).
  { exists 1. split; [reflexivity | discriminate]. }
  split; [exact L |].
  apply (@literal_subexpressions_are_literals e (StrExpr "k") L).
  apply (@hashed_below (StrExpr "k")
           (IndexExpr x (TupleExpr [IntExpr 0; StrExpr "k"])) e);
    [simpl; auto |].
  apply (@hashed_below (StrExpr "k") (TupleExpr [IntExpr 0; StrExpr "k"])
           (IndexExpr x (TupleExpr [IntExpr 0; StrExpr "k"])));
    [simpl; auto |].
  apply (@hashed_below (StrExpr "k") (StrExpr "k")
           (TupleExpr [IntExpr 0; StrExpr "k"]));
    [simpl; auto |].
  apply hashed_here.
Defined.

(** ** Constants and ground Keys *)

Lemma min_yes (a b : Z) :
  classification a -> classification b -> Z.min a b = LITERAL_YES ->
  a = LITERAL_YES /\ b = LITERAL_YES.
Proof.
  intros Ha Hb. apply classification_bounds in Ha, Hb.
  unfold LITERAL_YES. lia.
Qed.

Lemma mapM_all_yes (l : list Expression) (cs : list Z) :
  mapM literal l = Ok cs ->
  Forall (fun c => c = LITERAL_YES) cs ->
  Forall (fun x => literal x = Ok LITERAL_YES) l.
Proof.
  intros H. apply mapM_Ok in H.
  induction H as [| x c xs cs' Hx _ IH]; intros Y; constructor;
    inversion Y; subst; auto.
Qed.

Lemma yes_children (e : Expression) :
  literal e = Ok LITERAL_YES ->
  Forall (fun x => literal x = Ok LITERAL_YES) (hashed_children e).
Proof.
  intros Hy. pose proof (is_literal_yes _ Hy) as L.
  destruct e; simpl;
    try (apply Forall_nil);
    try (apply Forall_cons; [exact Hy | apply Forall_nil]).
  - (* OpExpr *)
    simpl in Hy. apply bind_Ok in Hy. destruct Hy as (cl & Ll & Hy).
    apply bind_Ok in Hy. destruct Hy as (cr & Lr & Hy).
    injection Hy as Hmin.
    destruct (min_yes (literal_range _ Ll) (literal_range _ Lr) Hmin)
      as (-> & ->).
    apply Forall_cons; [exact Ll |].
    apply Forall_cons; [exact Lr | apply Forall_nil].
  - (* ComparisonExpr *)
    rewrite literal_comparison in Hy. apply bind_Ok in Hy.
    destruct Hy as (cs & Hcs & Hmin).
    apply (mapM_all_yes _ Hcs).
    pose proof (mapM_literal_classified _ Hcs) as Hcl.
    apply py_min_minimum in Hmin. destruct Hmin as (_ & _ & Hle).
    rewrite Forall_forall in *. intros c Hc.
    specialize (Hle c Hc). specialize (Hcl c Hc).
    apply classification_bounds in Hcl. unfold LITERAL_YES in *. lia.
  - (* ListExpr *) apply (@is_literal_display ListDisplay). exact L.
  - (* DictExpr *) apply entries_yes_children. apply is_literal_dict. exact L.
  - (* TupleExpr *) apply (@is_literal_display TupleDisplay). exact L.
  - (* SetExpr *) apply (@is_literal_display SetDisplay). exact L.
  - (* IndexExpr *)
    destruct (is_literal_index L) as (_ & Li).
    simpl in Hy. rewrite Li in Hy. simpl in Hy.
    apply Forall_cons; [exact Hy |].
    apply Forall_cons; [exact Li | apply Forall_nil].
Qed.

Lemma ground_tags (ops : list string) : forallb ground_item (map tag ops) = true.
Proof. induction ops; simpl; auto. Qed.

Lemma ground_items (l : list Expression) :
  Forall (fun x => ground (key_of x) = true) l ->
  forallb ground_item (map (fun x => KTuple (key_of x)) l) = true.
Proof.
  induction 1 as [| x xs Hx _ IH]; simpl; [reflexivity |].
  fold (ground (key_of x)). rewrite Hx, IH. reflexivity.
Qed.

Lemma Forall_modus_ponens {A : Type} (P Q : A -> Prop) (l : list A) :
  Forall (fun x => P x -> Q x) l -> Forall P l -> Forall Q l.
Proof.
  induction 1 as [| x xs Hx _ IH]; intros HP; constructor;
    inversion HP; subst; auto.
Qed.

Lemma ground_key_of_yes (e : Expression) :
  literal e = Ok LITERAL_YES -> ground (key_of e) = true.
Proof.
  induction e using Expression_nested_ind; intros Hy;
    pose proof (yes_children _ Hy) as Hch; simpl in Hch;
    try reflexivity.
  - (* StarExpr *)
    unfold ground. simpl. fold (ground (key_of e)).
    rewrite (IHe Hy). reflexivity.
  - (* NameExpr *)
    simpl in Hy. unfold ground. simpl.
    destruct (final_constant node); [reflexivity | discriminate Hy].
  - (* MemberExpr *)
    unfold ground. simpl. fold (ground (key_of e)).
    rewrite (IHe Hy). reflexivity.
  - (* OpExpr *)
    inversion Hch as [| ? ? L1 Hch']; subst.
    inversion Hch' as [| ? ? L2 _]; subst.
    unfold ground. simpl. fold (ground (key_of e1)) (ground (key_of e2)).
    rewrite (IHe1 L1), (IHe2 L2). reflexivity.
  - (* ComparisonExpr *)
    unfold ground. simpl. rewrite forallb_app, ground_tags. simpl.
    apply ground_items. apply (Forall_modus_ponens _ H Hch).
  - (* UnaryExpr *)
    unfold ground. simpl. fold (ground (key_of e)).
    rewrite (IHe Hy). reflexivity.
  - (* ListExpr *)
    unfold ground. simpl.
    apply ground_items. apply (Forall_modus_ponens _ H Hch).
  - (* DictExpr *)
    unfold ground. simpl.
    pose proof (is_literal_dict (is_literal_yes _ Hy)) as Hyes.
    clear Hch Hy. induction H as [| ab xs (Ha & Hb) _ IH]; [reflexivity |].
    inversion Hyes as [| ? ? (a & Ea & La & Lb) Hyes']; subst.
    simpl. rewrite Ea.
    change (ground_item (KTuple (key_of a))) with (ground (key_of a)).
    fold (ground (key_of (snd ab))).
    rewrite (Ha a Ea La), (Hb Lb). simpl. apply IH. exact Hyes'.
  - (* TupleExpr *)
    unfold ground. simpl.
    apply ground_items. apply (Forall_modus_ponens _ H Hch).
  - (* SetExpr *)
    unfold ground. simpl.
    apply ground_items. apply (Forall_modus_ponens _ H Hch).
  - (* IndexExpr *)
    inversion Hch as [| ? ? L1 Hch']; subst.
    inversion Hch' as [| ? ? L2 _]; subst.
    unfold ground. simpl. fold (ground (key_of e1)) (ground (key_of e2)).
    rewrite (IHe1 L1), (IHe2 L2). reflexivity.
  - (* AssignmentExpr *)
    simpl. apply IHe1. exact Hy.
Qed.

Lemma ground_items_inv (l : list Expression) :
  forallb ground_item (map (fun x => KTuple (key_of x)) l) = true ->
  Forall (fun x => ground (key_of x) = true) l.
Proof.
  induction l as [| x xs IH]; simpl; intros H; constructor;
    apply andb_true_iff in H; destruct H as (Hx & Hxs); auto.
Qed.

Lemma literal_is_type_or_yes (e : Expression) (c : Z) :
  literal e = Ok c -> c <> LITERAL_NO ->
  c = LITERAL_TYPE \/ c = LITERAL_YES.
Proof.
  intros Hc Hne. destruct (literal_range _ Hc) as [-> | H];
    [contradiction | exact H].
Qed.

Lemma fallback_literal_is_yes (e : Expression) :
  match e with
  | ListExpr _ | DictExpr _ | TupleExpr _ | SetExpr _ => True
  | _ => False
  end ->
  is_literal e -> literal e = Ok LITERAL_YES.
Proof.
  intros Hshape (c & Hc & Hne). rewrite Hc. f_equal.
  destruct e; try contradiction; simpl in Hc; bind_inv; congruence.
Qed.

Lemma yes_of_ground_key (e : Expression) :
  is_literal e -> ground (key_of e) = true -> literal e = Ok LITERAL_YES.
Proof.
  induction e using Expression_nested_ind; intros L G;
    try reflexivity;
    try (apply fallback_literal_is_yes; [exact I | exact L]);
    unfold ground in G; simpl in G.
  - (* StarExpr *)
    simpl. apply IHe; [exact L |]. rewrite andb_true_r in G. exact G.
  - (* NameExpr *)
    simpl. destruct (final_constant node) eqn:E; [reflexivity |].
    simpl in G. destruct node; discriminate G.
  - (* MemberExpr *)
    simpl. apply IHe; [exact L |].
    apply andb_true_iff in G. destruct G as (G & _). exact G.
  - (* OpExpr *)
    destruct (is_literal_op L) as (L1 & L2).
    apply andb_true_iff in G. destruct G as (G1 & G2).
    rewrite andb_true_r in G2.
    simpl. rewrite (IHe1 L1 G1), (IHe2 L2 G2). reflexivity.
  - (* ComparisonExpr *)
    rewrite forallb_app in G. apply andb_true_iff in G.
    destruct G as (_ & G). apply ground_items_inv in G.
    pose proof (is_literal_comparison L) as Lall.
    assert (Hyes : Forall (fun x => literal x = Ok LITERAL_YES) operands).
    { clear L. induction H as [| x xs Hx _ IH]; constructor;
        inversion G; inversion Lall; subst; auto. }
    destruct L as (c & Hc & Hne). rewrite Hc. f_equal.
    rewrite literal_comparison in Hc. apply bind_Ok in Hc.
    destruct Hc as (cs & Hcs & Hmin).
    apply py_min_minimum in Hmin. destruct Hmin as (_ & Hin & _).
    apply mapM_Ok in Hcs. clear - Hcs Hyes Hin.
    induction Hcs as [| x cx xs cs' Hx _ IH]; [contradiction |].
    inversion Hyes as [| ? ? Yx Yxs]; subst.
    destruct Hin as [<- | Hin]; [congruence | auto].
  - (* UnaryExpr *)
    simpl. apply IHe; [exact L |]. rewrite andb_true_r in G. exact G.
  - (* IndexExpr *)
    destruct (is_literal_index L) as (Lb & Li).
    apply andb_true_iff in G. destruct G as (G1 & _).
    simpl. rewrite Li. simpl. apply IHe1; assumption.
  - (* AssignmentExpr *)
    simpl. apply IHe1; [exact L | exact G].
  - (* Unhashed *)
    destruct (not_literal_unhashed L).
Qed.

Lemma ground_key_has_no_var (k : Key) :
  ground k = true -> extract_var_from_literal_hash k = None.
Proof.
  destruct k as [| k0 [| k1 [| k2 rest]]]; try reflexivity.
  unfold ground. simpl. intros G.
  destruct (item_eqb k0 (tag "Var")); [| reflexivity].
  destruct k1 as [| [v | id] | |]; try reflexivity.
  apply andb_true_iff in G. destruct G as (_ & G). discriminate G.
Qed.

(** X8: a literal is classified LITERAL_YES exactly when its Key holds no
    symbol node and no [None] at any depth, that is, when it is built from
    strings, numbers and nested tuples only; such a Key refers to no
    variable. *)
Theorem constant_iff_ground_key (e : Expression) :
  is_literal e ->
  exists k,
    literal_hash e = Ok (Some k)
    /\ (literal e = Ok LITERAL_YES <-> ground k = true)
    /\ (ground k = true -> extract_var_from_literal_hash k = None).
Proof.
  intros L. exists (key_of e).
  split; [apply literal_hash_key_of; exact L |].
  split; [| apply ground_key_has_no_var].
  split; [apply ground_key_of_yes | apply yes_of_ground_key; exact L].
Qed.

Lemma constant_iff_ground_key_witness :
  let e := OpExpr "+" (NameExpr "N" (Some (VarNode (mkVar 1 true (Some (VInt 8))))))
                      (IntExpr 1) in
  is_literal e
  /\ exists k, literal_hash e = Ok (Some k) /\ ground k = true.
Proof.
  intros e.
  assert (L : is_literal e).
  { exists 2. split; [reflexivity | discriminate]. }
  split; [exact L |].
  destruct (constant_iff_ground_key L) as (k & Hk & Hiff & _).
  exists k. split; [exact Hk |]. apply Hiff. reflexivity.
Defined.

(** ** Equal Keys, equal classification *)

Lemma forall2b_ground (l r : list item) :
  Forall (fun a => forall b, item_eqb a b = true ->
                             ground_item a = ground_item b) l ->
  forall2b item_eqb l r = true ->
  forallb ground_item l = forallb ground_item r.
Proof.
  intros H. revert r. induction H as [| a l' Ha _ IH]; intros [| b r'];
    simpl; intros E; try discriminate E; [reflexivity |].
  apply andb_true_iff in E. destruct E as (Eab & Erest).
  rewrite (Ha b Eab), (IH r' Erest). reflexivity.
Qed.

Lemma item_eqb_ground (a b : item) :
  item_eqb a b = true -> ground_item a = ground_item b.
Proof.
  revert b. induction a using item_nested_ind; intros [w | m | | r];
    simpl; intros E; try discriminate E; try reflexivity.
  apply forall2b_ground; assumption.
Qed.

Lemma key_eqb_ground (k1 k2 : Key) :
  key_eqb k1 k2 = true -> ground k1 = ground k2.
Proof.
  apply forall2b_ground. apply Forall_forall.
  intros a _ b. apply item_eqb_ground.
Qed.

(** X9: the Key determines the classification among literals: two
    literals whose Keys are equal have the same classification. *)
Theorem equal_keys_equal_classification (e1 e2 : Expression)
    (k1 k2 : Key) (c1 c2 : Z) :
  literal e1 = Ok c1 -> c1 <> LITERAL_NO ->
  literal e2 = Ok c2 -> c2 <> LITERAL_NO ->
  literal_hash e1 = Ok (Some k1) ->
  literal_hash e2 = Ok (Some k2) ->
  key_eqb k1 k2 = true ->
  c1 = c2.
Proof.
  intros H1 N1 H2 N2 K1 K2 E.
  assert (L1 : is_literal e1) by (exists c1; auto).
  assert (L2 : is_literal e2) by (exists c2; auto).
  rewrite (literal_hash_key_of L1) in K1. injection K1 as <-.
  rewrite (literal_hash_key_of L2) in K2. injection K2 as <-.
  apply key_eqb_ground in E.
  destruct (literal_is_type_or_yes _ H1 N1) as [-> | ->];
    destruct (literal_is_type_or_yes _ H2 N2) as [-> | ->];
    try reflexivity; exfalso.
  - pose proof (ground_key_of_yes _ H2) as G2. rewrite <- E in G2.
    pose proof (yes_of_ground_key L1 G2) as Y1.
    rewrite H1 in Y1. discriminate Y1.
  - pose proof (ground_key_of_yes _ H1) as G1. rewrite E in G1.
    pose proof (yes_of_ground_key L2 G1) as Y2.
    rewrite H2 in Y2. discriminate Y2.
Qed.

Lemma equal_keys_equal_classification_witness :
  let n := NameExpr "N" (Some (VarNode (mkVar 1 true (Some (VInt 8))))) in
  let eight := S754_finite false 4503599627370496 (-49) in
  literal n = Ok LITERAL_YES
  /\ literal (FloatExpr eight) = Ok LITERAL_YES
  /\ literal_hash n = Ok (Some [tag "Literal"; KVal (VInt 8)])
  /\ literal_hash (FloatExpr eight)
     = Ok (Some [tag "Literal"; KVal (VFloat eight)])
  /\ key_eqb [tag "Literal"; KVal (VInt 8)]
             [tag "Literal"; KVal (VFloat eight)] = true
  /\ LITERAL_YES = LITERAL_YES.
Proof.
  intros n eight. repeat (split; [reflexivity |]).
  apply (@equal_keys_equal_classification n (FloatExpr eight)
           [tag "Literal"; KVal (VInt 8)]
           [tag "Literal"; KVal (VFloat eight)] LITERAL_YES LITERAL_YES);
    try reflexivity; discriminate.
Defined.

(** ** [subkeys] *)

Lemma subkeys_app (a b : Key) :
  subkeys (a ++ b)%list = (subkeys a ++ subkeys b)%list.
Proof. apply flat_map_app. Qed.

Lemma subkeys_tags (ops : list string) : subkeys (map tag ops) = [].
Proof. induction ops; simpl; auto. Qed.

Lemma subkeys_tuples {A : Type} (f : A -> Key) (l : list A) :
  subkeys (map (fun x => KTuple (f x)) l) = map f l.
Proof.
  induction l as [| x xs IH]; [reflexivity |].
  change (f x :: subkeys (map (fun y => KTuple (f y)) xs) = f x :: map f xs).
  rewrite IH. reflexivity.
Qed.

Lemma subkeys_key_of (e : Expression) :
  is_assignment e = false ->
  (forall items, e <> DictExpr items) ->
  subkeys (key_of e) = map key_of (hashed_children e).
Proof.
  intros Hna Hnd. destruct e; try discriminate Hna; try reflexivity.
  - (* NameExpr *)
    simpl. destruct (final_constant node); [reflexivity |].
    destruct node; reflexivity.
  - (* ComparisonExpr *)
    simpl key_of. simpl hashed_children.
    change (subkeys (tag "Comparison" :: ?l)) with (subkeys l).
    rewrite subkeys_app, subkeys_tags. apply subkeys_tuples.
  - (* ListExpr *)
    simpl key_of. simpl hashed_children.
    change (subkeys (tag "List" :: ?l)) with (subkeys l).
    apply subkeys_tuples.
  - (* DictExpr *)
    destruct (Hnd items eq_refl).
  - (* TupleExpr *)
    simpl key_of. simpl hashed_children.
    change (subkeys (tag "Tuple" :: ?l)) with (subkeys l).
    apply subkeys_tuples.
  - (* SetExpr *)
    simpl key_of. simpl hashed_children.
    change (subkeys (tag "Set" :: ?l)) with (subkeys l).
    apply subkeys_tuples.
Qed.

Lemma assigned_target_facts (e : Expression) :
  literal (assigned_target e) = literal e
  /\ key_of (assigned_target e) = key_of e
  /\ is_assignment (assigned_target e) = false.
Proof. induction e; simpl; auto. Qed.

Lemma hashes_of_literals (l : list Expression) :
  Forall is_literal l ->
  Forall2 (fun x sk => literal_hash x = Ok (Some sk)) l (map key_of l).
Proof.
  induction 1 as [| x xs Lx _ IH]; simpl; constructor;
    [apply literal_hash_key_of; exact Lx | exact IH].
Qed.

(** X10: the tuples among the elements of a literal's Key are the Keys of
    its sub-expressions, in order: [subkeys] of the Key lists the hashes
    of the base and index of an index expression, of the operands of an
    operator or comparison, of the elements of a display (for an inline
    assignment, those of its target).  A dict display is the exception:
    there [subkeys] lists one pair (key hash, value hash) per entry. *)
Theorem subkeys_are_hashes_of_subexpressions (e : Expression) (k : Key) :
  is_literal e ->
  literal_hash e = Ok (Some k) ->
  ((forall items, assigned_target e <> DictExpr items) ->
   Forall2 (fun x sk => literal_hash x = Ok (Some sk))
     (hashed_children (assigned_target e)) (subkeys k))
  /\ (forall items,
        assigned_target e = DictExpr items ->
        Forall2 (fun ab sk => entry_pair ab (KTuple sk)) items (subkeys k)).
Proof.
  intros L Hk. rewrite (literal_hash_key_of L) in Hk. injection Hk as <-.
  destruct (assigned_target_facts e) as (Hlit & Hkey & Hna).
  assert (Lt : is_literal (assigned_target e)).
  { destruct L as (c & Hc & Hne). exists c. rewrite Hlit. auto. }
  rewrite <- Hkey. split.
  - intros Hnd. rewrite (subkeys_key_of Hna Hnd).
    apply hashes_of_literals. apply literal_children. exact Lt.
  - intros items E. rewrite E in *. clear E Hna Hlit Hkey.
    pose proof (is_literal_dict Lt) as Hyes.
    simpl key_of. change (subkeys (tag "Dict" :: ?l)) with (subkeys l).
    clear Lt L. induction Hyes as [| ab xs (a & Ea & La & Lb) _ IH];
      [constructor |].
    simpl. constructor; [| exact IH].
    exists a, (key_of a), (key_of (snd ab)). rewrite Ea.
    split; [reflexivity |].
    split; [apply literal_hash_key_of; apply is_literal_yes; exact La |].
    split; [apply literal_hash_key_of; apply is_literal_yes; exact Lb |].
    reflexivity.
Qed.

Lemma subkeys_are_hashes_of_subexpressions_witness :
  let x := NameExpr "x" (Some (VarNode (mkVar 1 false None))) in
  let e := IndexExpr x (IntExpr 0) in
  let k := [tag "Index"; KTuple [tag "Var"; KNode (VarNode (mkVar 1 false None))];
            KTuple [tag "Literal"; KVal (VInt 0)]] in
  is_literal e
  /\ literal_hash e = Ok (Some k)
  /\ Forall2 (fun y sk => literal_hash y = Ok (Some sk))
       [x; IntExpr 0] (subkeys k).
Proof.
  intros x e k.
  assert (L : is_literal e).
  { exists 1. split; [reflexivity | discriminate]. }
  split; [exact L |]. split; [reflexivity |].
  apply (proj1 (@subkeys_are_hashes_of_subexpressions e k L eq_refl)).
  intros items. discriminate.
Defined.

(** ** Inline assignments are transparent *)

(** X11: inline assignments are transparent at every depth: replacing
    each inline assignment inside an expression by its target changes
    neither the result of [literal] nor that of [literal_hash]; the
    assigned values are never inspected. *)
Theorem inline_assignments_are_transparent (e : Expression) :
  literal (inline_targets e) = literal e
  /\ literal_hash (inline_targets e) = literal_hash e.
Proof. apply inline_targets_preserves. Qed.

(** ** Dict displays stop at the first rejected entry *)

Lemma entry_test_false (ab : option Expression * Expression) :
  entry_classified ab -> ~ entry_yes ab ->
  match fst ab with
  | None => Ok false
  | Some a =>
      ca <- literal a ;;
      cb <- literal (snd ab) ;;
      Ok ((ca =? cb) && (cb =? LITERAL_YES))%bool
  end = Ok false.
Proof.
  intros Hcl Hno. destruct (entry_test_returns Hcl) as ([|] & Hb).
  - apply entry_test_true in Hb. contradiction.
  - exact Hb.
Qed.

(** X12: [visit_dict_expr] stops at the first entry that has no explicit
    key, or whose key and value are not both LITERAL_YES (equal
    classifications of key and value are not enough): when the entries
    before it pass, the dict display hashes to [None] and is classified
    LITERAL_NO whatever entries follow. *)
Theorem dict_rejected_at_first_bad_entry
    (pre post : list (option Expression * Expression))
    (ab : option Expression * Expression) :
  Forall entry_yes pre ->
  entry_classified ab ->
  ~ entry_yes ab ->
  literal_hash (DictExpr (pre ++ ab :: post)) = Ok None
  /\ literal (DictExpr (pre ++ ab :: post)) = Ok LITERAL_NO.
Proof.
  intros Hpre Hcl Hno.
  assert (Hh : literal_hash (DictExpr (pre ++ ab :: post)) = Ok None).
  { simpl. unfold visit_dict_expr. rewrite allM_stops; [reflexivity | |].
    - eapply Forall_impl; [| exact Hpre]. intros x. apply entry_test_true.
    - apply entry_test_false; assumption. }
  split; [exact Hh |]. apply literal_hash_absent_No. exact Hh.
Qed.

Lemma dict_rejected_at_first_bad_entry_witness :
  let x := NameExpr "x" (Some (VarNode (mkVar 1 false None))) in
  literal x = Ok LITERAL_TYPE
  /\ literal_hash
       (DictExpr [(Some (IntExpr 1), IntExpr 2); (Some x, x);
                  (Some (ComparisonExpr [] []), IntExpr 3)])
     = Ok None.
Proof.
  intros x. split; [reflexivity |].
  apply (@dict_rejected_at_first_bad_entry
           [(Some (IntExpr 1), IntExpr 2)]
           [(Some (ComparisonExpr [] []), IntExpr 3)] (Some x, x)).
  - repeat constructor. exists (IntExpr 1). repeat split.
  - split.
    + intros a E. injection E as <-. exists 1. reflexivity.
    + exists 1. reflexivity.
  - intros (a & E & La & _). injection E as <-. discriminate La.
Defined.

(** ** Classification and sub-expressions *)

(** X13: the classification of an expression never exceeds that of a
    sub-expression it is built from: whenever [literal] returns on an
    expression and on one of its hashed sub-expressions, the first result
    is at most the second in the order NO < TYPE < YES. *)
Theorem classification_never_exceeds_subexpression
    (e x : Expression) (c cx : Z) :
  literal e = Ok c ->
  In x (hashed_children e) ->
  literal x = Ok cx ->
  c <= cx.
Proof.
  intros Hc Hin Hx.
  pose proof (literal_range _ Hc) as Rc. apply classification_bounds in Rc.
  pose proof (literal_range _ Hx) as Rx. apply classification_bounds in Rx.
  assert (Hyes : c = LITERAL_YES -> cx = LITERAL_YES).
  { intros ->. pose proof (yes_children _ Hc) as Hall.
    rewrite Forall_forall in Hall. specialize (Hall _ Hin).
    rewrite Hall in Hx. injection Hx as <-. reflexivity. }
  destruct (Z.eq_dec c LITERAL_YES) as [Y | NY].
  { rewrite (Hyes Y), Y. lia. }
  destruct (Z.eq_dec c LITERAL_NO) as [-> | NN]; [unfold LITERAL_NO; lia |].
  assert (Ht : c = LITERAL_TYPE).
  { unfold LITERAL_YES, LITERAL_NO, LITERAL_TYPE in *. lia. }
  assert (Hne : cx <> LITERAL_NO).
  { assert (L : is_literal e) by (exists c; auto).
    pose proof (literal_children L) as Hall.
    rewrite Forall_forall in Hall. destruct (Hall _ Hin) as (c' & Hc' & Hn').
    rewrite Hc' in Hx. injection Hx as <-. exact Hn'. }
  unfold LITERAL_YES, LITERAL_NO, LITERAL_TYPE in *. lia.
Qed.

Lemma classification_never_exceeds_subexpression_witness :
  let x := NameExpr "x" (Some (VarNode (mkVar 1 false None))) in
  literal (IndexExpr x (IntExpr 0)) = Ok 1
  /\ literal (IntExpr 0) = Ok 2
  /\ 1 <= 2.
Proof.
  intros x. split; [reflexivity |]. split; [reflexivity |].
  apply (@classification_never_exceeds_subexpression
           (IndexExpr x (IntExpr 0)) (IntExpr 0) 1 2 eq_refl).
  - simpl. auto.
  - reflexivity.
Defined.
